(** * nexus-lite: the health-data intake service ([backend/healthdata.py])

    A shallow embedding of the three field validators of
    [HealthDataRequest], of the bearer-token resolver [get_current_user] and
    of the two handlers [log_health_data] and [get_health_data], with the
    part of the Python runtime they call ([str.replace], [str.split],
    [str.lower], [re.match], [int], [round], comparison of floats), and the
    properties of the service proved over it.

    How the program is read:
    - a [str] is a list of code points; what [\d], [int] and [lower] do
      outside ASCII comes from the Unicode database of the interpreter, an
      interface here ([UnicodeData]);
    - a [float] is a binary64 number ([spec_float] with a precision of 53
      bits), NaN and the infinities included;
    - a validator returns the value it keeps or the [ValueError] it raises;
    - a handler is a function of the database of its [Session] that returns
      or raises an [HTTPException], together with the database it leaves;
    - the tables are lists of rows in the order of the store; an insertion
      succeeds and gives the row an id above every id in use;
    - [decode_access_token] ([backend/utils.py]) is an interface
      ([TokenCodec]). *)

From Stdlib Require Import ZArith NArith List String Ascii Bool Lia.
From Stdlib Require Import Floats.SpecFloat.
From stdpp Require Import base option list gmap strings.

Local Open Scope Z_scope.

(** ** Python strings

  A Python [str] is a sequence of Unicode code points. *)

Definition pystr := list N.

(** The code points of a literal of the development. *)
Definition lit (s : string) : pystr :=
  map N_of_ascii (list_ascii_of_string s).

Definition SPACE : N := 32.
Definition SLASH : N := 47.
Definition NEWLINE : N := 10.
Definition TAB : N := 9.
Definition UNDERSCORE : N := 95.

Definition in_range (lo hi c : N) : bool := ((lo <=? c) && (c <=? hi))%N.

(** [Py_UNICODE_ISSPACE]: the code points [str.split()] and [int()] treat
  as whitespace. *)
Definition Py_UNICODE_ISSPACE (c : N) : bool :=
  in_range 9 13 c || in_range 28 32 c
  || (c =? 133)%N || (c =? 160)%N || (c =? 5760)%N
  || in_range 8192 8202 c || (c =? 8232)%N || (c =? 8233)%N
  || (c =? 8239)%N || (c =? 8287)%N || (c =? 12288)%N.

(** [Py_ISSPACE]: whitespace of the C locale, skipped by the integer parser. *)
Definition Py_ISSPACE (c : N) : bool := in_range 9 13 c || (c =? 32)%N.

(** Case analysis on the comparisons of code points of a goal, for a
    handful of comparisons. *)
Ltac ncases :=
  repeat match goal with
  | |- context [(?a <=? ?b)%N] => destruct (N.leb_spec a b)
  | |- context [(?a <? ?b)%N] => destruct (N.ltb_spec a b)
  | |- context [(?a =? ?b)%N] => destruct (N.eqb_spec a b)
  end; simpl; try reflexivity; try lia.

(** [not_space] proves [Py_UNICODE_ISSPACE c = false] from bounds on [c]. *)
Ltac not_space :=
  match goal with
  | |- Py_UNICODE_ISSPACE ?c = false =>
      let E := fresh "E" in
      destruct (Py_UNICODE_ISSPACE c) eqn:E; [exfalso|reflexivity];
      unfold Py_UNICODE_ISSPACE, in_range in E;
      rewrite !orb_true_iff, !andb_true_iff, !N.leb_le, !N.eqb_eq in E; lia
  end.

(** The part of the Unicode character database the service consults for
  code points outside ASCII: the decimal value of a digit of category Nd
  and the lower-case mapping.  It changes with the Unicode version of the
  interpreter, so it is an interface here. *)
Class UnicodeData := {
  unicode_todecimal : N -> option N;
  unicode_tolower : N -> pystr;
  todecimal_digit :
    forall c d, unicode_todecimal c = Some d -> (d < 10)%N;
  todecimal_not_space :
    forall c d, unicode_todecimal c = Some d -> Py_UNICODE_ISSPACE c = false
}.

(** The database restricted to ASCII: no further digit, no case mapping. *)
Definition ascii_unicode_data : UnicodeData :=
  {| unicode_todecimal := fun _ => None;
     unicode_tolower := fun c => [c];
     todecimal_digit := fun c d H => ltac:(discriminate H);
     todecimal_not_space := fun c d H => ltac:(discriminate H) |}.

(** The same with the Arabic-Indic digits U+0660 to U+0669, as an example of
    digits outside ASCII. *)
Definition arabic_indic_unicode_data : UnicodeData :=
  {| unicode_todecimal := fun c =>
       if in_range 1632 1641 c then Some (c - 1632)%N else None;
     unicode_tolower := fun c => [c];
     todecimal_digit := ltac:(
       intros c d; unfold in_range;
       destruct (N.leb_spec 1632 c); destruct (N.leb_spec c 1641); simpl;
       intros E; [injection E as <-; lia | discriminate E ..]);
     todecimal_not_space := ltac:(
       intros c d; unfold in_range;
       destruct (N.leb_spec 1632 c); destruct (N.leb_spec c 1641); simpl;
       intros E; [| discriminate E ..]; not_space) |}.

Section Strings.
Context {UD : UnicodeData}.

(** [Py_UNICODE_TODECIMAL] *)
Definition Py_UNICODE_TODECIMAL (c : N) : option N :=
  if (c <? 128)%N then
    (if in_range 48 57 c then Some (c - 48)%N else None)
  else unicode_todecimal c.

Definition Py_UNICODE_ISDECIMAL (c : N) : bool :=
  match Py_UNICODE_TODECIMAL c with Some _ => true | None => false end.

(** [s.replace(old, new)] for a one-character [old]. *)
Definition str_replace (old : N) (new : pystr) (s : pystr) : pystr :=
  flat_map (fun c => if (c =? old)%N then new else [c]) s.

(** [s.split(sep)] for a one-character [sep]: never empty, one more piece
    than there are separators. *)
Fixpoint str_split (sep : N) (s : pystr) : list pystr :=
  match s with
  | [] => [[]]
  | c :: s' =>
      if (c =? sep)%N then [] :: str_split sep s'
      else match str_split sep s' with
           | [] => [[c]]
           | w :: ws => (c :: w) :: ws
           end
  end.

(** [s.split()]: the maximal runs of characters that are not whitespace.
    [word] is the run being read, in reverse. *)
Fixpoint str_split_whitespace_from (word : pystr) (s : pystr) : list pystr :=
  match s with
  | [] => match word with [] => [] | _ => [rev word] end
  | c :: s' =>
      if Py_UNICODE_ISSPACE c then
        match word with
        | [] => str_split_whitespace_from [] s'
        | _ => rev word :: str_split_whitespace_from [] s'
        end
      else str_split_whitespace_from (c :: word) s'
  end.

Definition str_split_whitespace (s : pystr) : list pystr :=
  str_split_whitespace_from [] s.

(** [s.lower()] *)
Definition char_lower (c : N) : pystr :=
  if (c <? 128)%N then [if in_range 65 90 c then (c + 32)%N else c]
  else unicode_tolower c.

Definition str_lower (s : pystr) : pystr := flat_map char_lower s.

(** *** [int(s)]

    The text is first brought to ASCII (a digit of any script becomes its
    ASCII digit, whitespace outside ASCII a space, anything else outside
    ASCII cuts the text with a character that cannot be parsed); then
    whitespace is skipped on both sides of an optional sign and a run of
    digits in which single underscores may separate digits. *)
Fixpoint transform_decimal_and_space (s : pystr) : pystr :=
  match s with
  | [] => []
  | c :: s' =>
      if (c <? 127)%N then c :: transform_decimal_and_space s'
      else if Py_UNICODE_ISSPACE c then SPACE :: transform_decimal_and_space s'
      else match Py_UNICODE_TODECIMAL c with
           | Some d => (48 + d)%N :: transform_decimal_and_space s'
           | None => [63%N]
           end
  end.

Fixpoint skip_space (s : pystr) : pystr :=
  match s with
  | c :: s' => if Py_ISSPACE c then skip_space s' else s
  | [] => []
  end.

Definition ascii_digit (c : N) : option Z :=
  if in_range 48 57 c then Some (Z.of_N c - 48) else None.

(** The digits after the first one: [acc] is the value read so far,
    [after_underscore] tells that the previous character was an
    underscore.  Returns the value and the unread rest. *)
Fixpoint long_digits (acc : Z) (after_underscore : bool) (s : pystr)
  : option (Z * pystr) :=
  match s with
  | [] => if after_underscore then None else Some (acc, [])
  | c :: s' =>
      match ascii_digit c with
      | Some d => long_digits (10 * acc + d) false s'
      | None =>
          if (c =? UNDERSCORE)%N then
            (if after_underscore then None else long_digits acc true s')
          else if after_underscore then None else Some (acc, s)
      end
  end.

Definition long_from_string (s : pystr) : option Z :=
  let s := skip_space s in
  let negative := match s with c :: _ => (c =? 45)%N | [] => false end in
  let s :=
    match s with
    | c :: s' => if (c =? 43)%N || (c =? 45)%N then s' else s
    | [] => s
    end in
  match s with
  | c :: s' =>
      match ascii_digit c with
      | Some d =>
          match long_digits d false s' with
          | Some (n, rest) =>
              match skip_space rest with
              | [] => Some (if negative then - n else n)
              | _ => None
              end
          | None => None
          end
      | None => None
      end
  | [] => None
  end.

(** The value of a decimal digit of any script, its ASCII digit, and the
    number a run of digits denotes. *)
Definition decimal_of (c : N) : N :=
  match Py_UNICODE_TODECIMAL c with Some d => d | None => 0%N end.

Definition ascii_of_decimal (c : N) : N := (48 + decimal_of c)%N.

Definition digit_value (c : N) : Z := Z.of_N (decimal_of c).

Definition digits_value (d : pystr) : Z :=
  fold_left (fun a c => 10 * a + digit_value c) d 0.

(** [int(s)]; [None] is the [ValueError] of an invalid literal. *)
Definition py_int (s : pystr) : option Z :=
  long_from_string (transform_decimal_and_space s).
End Strings.


(** ** Regular expressions

    The part of [re] the service uses: a pattern is a sequence of anchors,
    one-character matchers and greedy bounded repetitions of a
    one-character matcher, matched with backtracking from the start of the
    text ([re.match], no flags). *)

Inductive charset :=
| LITERAL (c : N)
| CATEGORY_DIGIT.

Inductive re_op :=
| AT_BEGINNING
| AT_END
| IN (cs : charset)
| MAX_REPEAT (lo hi : nat) (cs : charset).

Section Regex.
Context {UD : UnicodeData}.

Definition charset_match (cs : charset) (c : N) : bool :=
  match cs with
  | LITERAL l => (c =? l)%N
  | CATEGORY_DIGIT => Py_UNICODE_ISDECIMAL c
  end.

(** [$] without [re.MULTILINE]: at the end of the text, or just before a
    newline that ends the text. *)
Definition at_end (rest : pystr) : bool :=
  match rest with
  | [] => true
  | [c] => (c =? NEWLINE)%N
  | _ => false
  end.

(** A greedy repetition of [cs], between [lo] and [hi] times, followed by
    the continuation [k]: one more character is tried first, and the
    repetition stops here only if that fails. *)
Fixpoint sre_repeat (cs : charset) (lo hi : nat) (pos : nat) (s : pystr)
  (k : nat -> pystr -> bool) : bool :=
  match hi with
  | O => Nat.eqb lo 0 && k pos s
  | S hi' =>
      match s with
      | c :: s' =>
          (charset_match cs c && sre_repeat cs (Nat.pred lo) hi' (S pos) s' k)
          || (Nat.eqb lo 0 && k pos s)
      | [] => Nat.eqb lo 0 && k pos s
      end
  end.

(** [pos] is the number of characters consumed, [s] the text left. *)
Fixpoint sre_match (p : list re_op) (pos : nat) (s : pystr) : bool :=
  match p with
  | [] => true
  | AT_BEGINNING :: p' => Nat.eqb pos 0 && sre_match p' pos s
  | AT_END :: p' => at_end s && sre_match p' pos s
  | IN cs :: p' =>
      match s with
      | c :: s' => charset_match cs c && sre_match p' (S pos) s'
      | [] => false
      end
  | MAX_REPEAT lo hi cs :: p' =>
      sre_repeat cs lo hi pos s (fun pos' s' => sre_match p' pos' s')
  end.

(** [re.match(p, s)] as a truth value. *)
Definition re_match (p : list re_op) (s : pystr) : bool := sre_match p 0 s.
End Regex.

(** [r'^\d{2,3}/\d{2,3}$'] *)
Definition BP_PATTERN : list re_op :=
  [AT_BEGINNING; MAX_REPEAT 2 3 CATEGORY_DIGIT; IN (LITERAL SLASH);
   MAX_REPEAT 2 3 CATEGORY_DIGIT; AT_END].

(** ** The request model: [HealthDataRequest] *)

(** What a validator gives: the value to keep, or the [ValueError] it
    raised, with its message. *)
Inductive validated (A : Type) :=
| Valid (v : A)
| ValueError (msg : string).
Arguments Valid {A} v.
Arguments ValueError {A} msg.

Definition DQUOTE : string := String (ascii_of_nat 34) EmptyString.

Definition MSG_BP_FORMAT : string :=
  ("Blood pressure must be in format " ++ DQUOTE ++ "systolic/diastolic"
   ++ DQUOTE ++ " (e.g., 120/80)")%string.
Definition MSG_SYSTOLIC : string := "Systolic pressure must be between 70 and 250".
Definition MSG_DIASTOLIC : string := "Diastolic pressure must be between 40 and 150".
Definition MSG_WEIGHT : string := "Weight must be a positive number".
Definition MSG_GLUCOSE : string := "Glucose level must be a positive number".
(** Raised by the runtime, not by the validator: [int] of a text that is no
    integer, or a split that does not give two pieces. *)
Definition MSG_UNPACK : string := "invalid literal for int() or wrong number of values to unpack".

Section BloodPressure.
Context {UD : UnicodeData}.

(** [systolic, diastolic = map(int, v.split('/'))] *)
Definition unpack_two_ints (pieces : list pystr) : option (Z * Z) :=
  match map py_int pieces with
  | [Some systolic; Some diastolic] => Some (systolic, diastolic)
  | _ => None
  end.

Definition validate_blood_pressure (v : pystr) : validated pystr :=
  let v := str_replace SPACE [] v in
  if negb (re_match BP_PATTERN v) then ValueError MSG_BP_FORMAT
  else
    match unpack_two_ints (str_split SLASH v) with
    | None => ValueError MSG_UNPACK
    | Some (systolic, diastolic) =>
        if (systolic <? 70) || (systolic >? 250) then ValueError MSG_SYSTOLIC
        else if (diastolic <? 40) || (diastolic >? 150) then ValueError MSG_DIASTOLIC
        else Valid v
    end.
End BloodPressure.

(** The two checks that follow a successful match of the pattern, to state
    what the validator does then. *)
Definition range_checks (systolic diastolic : Z) (v : pystr) : validated pystr :=
  if (systolic <? 70) || (systolic >? 250) then ValueError MSG_SYSTOLIC
  else if (diastolic <? 40) || (diastolic >? 150) then ValueError MSG_DIASTOLIC
  else Valid v.

(** *** The contract in the words of the specification

    "whitespace is stripped": every whitespace character is removed;
    "the exact pattern <2-3 digits>/<2-3 digits>": two pieces around one
    slash, each of two or three digits, and nothing else. *)
Section SpecWords.
Context {UD : UnicodeData}.

Definition spec_strip_whitespace (s : pystr) : pystr :=
  List.filter (fun c => negb (Py_UNICODE_ISSPACE c)) s.

Definition two_or_three_digits (d : pystr) : bool :=
  forallb Py_UNICODE_ISDECIMAL d
  && Nat.leb 2 (length d) && Nat.leb (length d) 3.

Definition spec_bp_pattern (s : pystr) : bool :=
  match str_split SLASH s with
  | [d1; d2] => two_or_three_digits d1 && two_or_three_digits d2
  | _ => false
  end.
End SpecWords.


(** ** Floating-point numbers

    A Python [float] is an IEEE 754 binary64 number. *)

Definition prec : Z := 53.
Definition emax : Z := 1024.

Definition float := spec_float.

Definition float_zero : float := S754_zero false.

(** [x <= y] and [x < y] on floats: false as soon as one side is a NaN. *)
Definition float_le (x y : float) : bool := SFleb x y.
Definition float_lt (x y : float) : bool := SFltb x y.

(** The integer nearest to [n / d] for [d > 0], a tie going to the even one. *)
Definition round_half_even (n d : Z) : Z :=
  let q := n / d in
  let r := n mod d in
  match (2 * r ?= d) with
  | Lt => q
  | Gt => q + 1
  | Eq => if Z.even q then q else q + 1
  end.

(** [round(x, ndigits)] for a float [x] and [ndigits >= 0]: infinities and
    NaN round to themselves; a finite [x = m * 2^e] is brought to the nearest
    multiple [q * 10^-ndigits] of the decimal unit (the exact value of [x]
    decides, a tie goes to the even [q]) and that decimal is read back as the
    nearest float. *)
Definition float_round (x : float) (ndigits : nat) : float :=
  match x with
  | S754_finite s m e =>
      let scale := 10 ^ Z.of_nat ndigits in
      let q :=
        match e with
        | Zneg p => round_half_even (Zpos m * scale) (2 ^ Zpos p)
        | _ => Zpos m * scale * 2 ^ e
        end in
      match q with
      | Zpos _ =>
          let '(mz, ez, lz) := SFdiv_core_binary prec emax q 0 scale 0 in
          binary_round_aux prec emax s mz ez lz
      | _ => S754_zero s
      end
  | _ => x
  end.

(** The binary64 number with the 53-bit significand [m] and the exponent [e]
    of its leading bit, as written in hexadecimal notation. *)
Definition b64 (m : positive) (e : Z) : float := S754_finite false m (e - 52).

(** *** Rounding in the words of the specification

    What it means for a float to be another one "rounded to 2 decimal
    places".  These definitions do not follow the code: [float_round] is
    compared with them.

    A binary64 number of magnitude [m * 2^e] has [e >= -1074], so that every
    magnitude is a whole number of units of [2^-1074]. *)

(** The exponent of the last place of a binary64 number whose leading bit is
    the bit [e - 1]. *)
Definition fexp64 (e : Z) : Z := fexp prec emax e.

(** The magnitude [m * 2^e] in units of [2^-1074]. *)
Definition units (m : positive) (e : Z) : Z := Zpos m * 2 ^ (e + 1074).

(** [u] units are the magnitude of a binary64 number: of zero, or of a finite
    number with a canonical mantissa and an exponent in range. *)
Definition representable (u : Z) : Prop :=
  u = 0 \/ exists m e, bounded prec emax m e = true /\ u = units m e.

(** No binary64 magnitude is nearer to [num / den] units than [u] units. *)
Definition nearest_units (num den u : Z) : Prop :=
  forall g, representable g -> Z.abs (den * u - num) <= Z.abs (den * g - num).

(** Another binary64 magnitude is as near to [num / den] units as [u] units. *)
Definition tied (num den u : Z) : Prop :=
  exists g, representable g /\ g <> u
            /\ Z.abs (den * g - num) = Z.abs (den * u - num).

(** [kept] is the number of sign [s] and magnitude [num / den] units of
    [2^-1074], rounded to binary64: below the halfway point between the
    largest binary64 number [(2^53 - 1) * 2^971] and [2^1024], the nearest
    binary64 number, the one with the even mantissa in a tie; from that point
    on, the infinity. *)
Definition nearest_binary64 (s : bool) (num den : Z) (kept : float) : Prop :=
  match kept with
  | S754_zero s' => s' = s /\ nearest_units num den 0
  | S754_finite s' m e =>
      s' = s /\ bounded prec emax m e = true
      /\ nearest_units num den (units m e)
      /\ (tied num den (units m e) -> Z.even (Zpos m) = true)
      /\ 2 * num < den * (2 ^ 54 - 1) * 2 ^ 2045
  | S754_infinity s' => s' = s /\ den * (2 ^ 54 - 1) * 2 ^ 2045 <= 2 * num
  | S754_nan => False
  end.

(** [q] is the integer nearest to [n * 2^e], the even one in a tie. *)
Definition nearest_integer (q n e : Z) : Prop :=
  match e with
  | Zneg p =>
      2 * Z.abs (q * 2 ^ Zpos p - n) <= 2 ^ Zpos p
      /\ (2 * Z.abs (q * 2 ^ Zpos p - n) = 2 ^ Zpos p -> Z.even q = true)
  | _ => q = n * 2 ^ e
  end.

(** [kept] is [v] rounded to 2 decimal places: for a finite [v] of magnitude
    [m * 2^e], the decimal [q / 100] with [q] the integer nearest to
    [100 * m * 2^e], read as a binary64 number of the sign of [v]; an
    infinity or a NaN is kept. *)
Definition rounded_to_2_places (v kept : float) : Prop :=
  match v with
  | S754_finite s m e =>
      exists q : Z,
        nearest_integer q (Zpos m * 100) e
        /\ nearest_binary64 s (q * 2 ^ 1074) 100 kept
  | _ => kept = v
  end.

(** Two invariants of the rounding of a quotient [N / D]: the place of
    [N / D] between [m] and [m + 1], as a [location] has it, and the state of
    a mantissa of [d] digits after [k] shifts to the right. *)
Definition inbetween (N D m : Z) (l : location) : Prop :=
  match l with
  | loc_Exact => N = m * D
  | loc_Inexact Lt => m * D < N /\ 2 * N < (2 * m + 1) * D
  | loc_Inexact Eq => 2 * N = (2 * m + 1) * D
  | loc_Inexact Gt => (2 * m + 1) * D < 2 * N /\ N < (m + 1) * D
  end.

Definition shifted (N D d : Z) (k : Z) (mrs : shr_record) : Prop :=
  0 <= k
  /\ 0 <= shr_m mrs
  /\ inbetween N (D * 2 ^ k) (shr_m mrs) (loc_of_shr_record mrs)
  /\ Zdigits2 (shr_m mrs) = Z.max 0 (d - k).



(** ** The field validators of [HealthDataRequest] for the two numbers *)

Definition validate_weight (v : float) : validated float :=
  if float_le v float_zero then ValueError MSG_WEIGHT
  else Valid (float_round v 2).

Definition validate_glucose (v : float) : validated float :=
  if float_le v float_zero then ValueError MSG_GLUCOSE
  else Valid (float_round v 2).

(** The body of a request once its three fields have the declared types,
    before the field validators have run. *)
Record candidate := {
  raw_weight : float;
  raw_bp : pystr;
  raw_glucose : float
}.

Module HealthDataRequest.
Record t := { weight : float; bp : pystr; glucose : float }.
End HealthDataRequest.

(** A [ValidationError]: the fields that failed, each with its message, in
    the order of the fields of the model. *)
Definition ValidationError := list (string * string).

Definition field_errors {A} (field : string) (r : validated A) : ValidationError :=
  match r with
  | Valid _ => []
  | ValueError msg => [(field, msg)]
  end.

Section RequestModel.
Context {UD : UnicodeData}.

(** Building a [HealthDataRequest]: every field validator runs, in the order
    of the fields, and the model exists only if none of them raised. *)
Definition HealthDataRequest_validate (c : candidate)
  : ValidationError + HealthDataRequest.t :=
  let w := validate_weight (raw_weight c) in
  let b := validate_blood_pressure (raw_bp c) in
  let g := validate_glucose (raw_glucose c) in
  match w, b, g with
  | Valid w', Valid b', Valid g' =>
      inr {| HealthDataRequest.weight := w';
             HealthDataRequest.bp := b';
             HealthDataRequest.glucose := g' |}
  | _, _, _ =>
      inl (field_errors "weight" w ++ field_errors "bp" b ++ field_errors "glucose" g)
  end.
End RequestModel.

(** ** The store *)

Module User.
(** Modelled from the spec: the [User] entity of [backend/models.py], which
    is not part of this module.  "identity used only as a foreign-key target
    and as the subject of the bearer token"; [columns] stands for whatever
    else a row holds. *)
Record t := { id : Z; columns : pystr }.
End User.

Module HealthData.
(** Modelled from the spec: the [HealthData] entity of [backend/models.py]:
    "integer id, system-assigned", "owning patient reference", weight, blood
    pressure, glucose, "creation timestamp (system-assigned)". *)
Record t := {
  id : Z;
  patient_id : Z;
  weight : float;
  bp : pystr;
  glucose : float;
  timestamp : Z
}.
End HealthData.

Module HealthDataResponse.
Record t := {
  id : Z;
  weight : float;
  bp : pystr;
  glucose : float;
  timestamp : Z
}.

(** What the response model keeps of a row. *)
Definition of_row (r : HealthData.t) : t :=
  {| id := HealthData.id r;
     weight := HealthData.weight r;
     bp := HealthData.bp r;
     glucose := HealthData.glucose r;
     timestamp := HealthData.timestamp r |}.
End HealthDataResponse.

(** The database behind a [Session]: the rows of the two tables, in the
    order of the store, and the clock that stamps new rows. *)
Record Session := {
  users : list User.t;
  health_data : list HealthData.t;
  now : Z
}.

(** Modelled from the spec: the id the store assigns to a new row
    ("integer id, system-assigned"): one more than the largest id in use. *)
Definition next_id (rows : list HealthData.t) : Z :=
  1 + fold_right Z.max 0 (map HealthData.id rows).

(** [db.query(User).filter(User.id == user_id).first()] *)
Definition query_user_first (db : Session) (user_id : option Z) : option User.t :=
  match user_id with
  | None => None
  | Some i => find (fun u => User.id u =? i) (users db)
  end.

(** [db.query(HealthData).filter(HealthData.patient_id == i).all()] *)
Definition query_health_data_all (db : Session) (i : Z) : list HealthData.t :=
  List.filter (fun r => HealthData.patient_id r =? i) (health_data db).

(** [db.add(entry); db.commit(); db.refresh(entry)]: the row is appended
    with the id and the timestamp the store gives it, and read back. *)
Definition add_commit_refresh (db : Session) (patient_id : Z) (weight : float)
  (bp : pystr) (glucose : float) : HealthData.t * Session :=
  let row :=
    {| HealthData.id := next_id (health_data db);
       HealthData.patient_id := patient_id;
       HealthData.weight := weight;
       HealthData.bp := bp;
       HealthData.glucose := glucose;
       HealthData.timestamp := now db |} in
  (row, {| users := users db;
           health_data := health_data db ++ [row];
           now := now db |}).

(** ** Handlers

    A handler reads and writes the database of its [Session] and either
    returns or raises an [HTTPException]. *)

Record HTTPException := { status_code : Z; detail : string }.

(** The exception of every failure of the resolver. *)
Definition unauthorized (msg : string) : HTTPException :=
  {| status_code := 401; detail := msg |}.

Inductive outcome (A : Type) :=
| Returned (a : A)
| Raised (e : HTTPException).
Arguments Returned {A} a.
Arguments Raised {A} e.

Definition handler (A : Type) : Type := Session -> outcome A * Session.

Definition ret {A} (a : A) : handler A := fun db => (Returned a, db).

Definition raise {A} (status : Z) (msg : string) : handler A :=
  fun db => (Raised {| status_code := status; detail := msg |}, db).

Definition bind {A B} (c : handler A) (k : A -> handler B) : handler B :=
  fun db =>
    match c db with
    | (Returned a, db') => k a db'
    | (Raised e, db') => (Raised e, db')
    end.

(** A query: the database is read and left as it is. *)
Definition query {A} (q : Session -> A) : handler A := fun db => (Returned (q db), db).

Notation "'do' x <- c ; k" := (bind c (fun x => k))
  (at level 10, x name, c at level 100, k at level 200).

(** Modelled from the spec: [decode_access_token] of [backend/utils.py],
    which is not part of this module: "decodes and verifies a bearer token
    string, returning a claim set or a failure signal".  [None] is the
    failure signal; the claims read here are user ids. *)
Class TokenCodec := {
  decode_access_token : pystr -> option (gmap string Z)
}.

Record Confirmation := { message : string; data_id : Z }.

Section Handlers.
Context {UD : UnicodeData} {TC : TokenCodec}.

(** [authorization] is [None] when the request has no such header. *)
Definition get_current_user (authorization : option pystr) : handler User.t :=
  match authorization with
  | None | Some [] => raise 401 "Token missing"
  | Some authorization =>
      match str_split_whitespace authorization with
      | [scheme; token] =>
          if negb (bool_decide (str_lower scheme = lit "bearer")) then
            raise 401 "Invalid authorization header"
          else
            match decode_access_token token with
            | None => raise 401 "Invalid or expired token"
            | Some payload =>
                if bool_decide (payload = ∅) then
                  raise 401 "Invalid or expired token"
                else
                  let user_id := payload !! "sub"%string in
                  do user <- query (fun db => query_user_first db user_id);
                  match user with
                  | None => raise 401 "User not found"
                  | Some user => ret user
                  end
            end
      | _ => raise 401 "Invalid authorization header"
      end
  end.

Definition log_health_data (data : HealthDataRequest.t) (current_user : User.t)
  : handler Confirmation :=
  fun db =>
    let '(new_entry, db') :=
      add_commit_refresh db (User.id current_user)
        (HealthDataRequest.weight data) (HealthDataRequest.bp data)
        (HealthDataRequest.glucose data) in
    (Returned {| message := "Health data recorded";
                 data_id := HealthData.id new_entry |}, db').

Definition get_health_data (current_user : User.t) : handler (list HealthData.t) :=
  do entries <- query (fun db => query_health_data_all db (User.id current_user));
  ret entries.

(** ** The two routes

    What the framework does around a handler: the dependencies are resolved
    first (an [HTTPException] of the resolver ends the request), then the
    body is validated (a [ValidationError] ends it with status 422), and only
    then the handler runs. *)
Inductive response :=
| Recorded (c : Confirmation)
| Listed (entries : list HealthDataResponse.t)
| Unprocessable (errors : ValidationError)
| Failed (e : HTTPException).

Definition POST_healthdata (authorization : option pystr) (body : candidate)
  (db : Session) : response * Session :=
  match get_current_user authorization db with
  | (Raised e, db1) => (Failed e, db1)
  | (Returned current_user, db1) =>
      match HealthDataRequest_validate body with
      | inl errors => (Unprocessable errors, db1)
      | inr data =>
          match log_health_data data current_user db1 with
          | (Returned c, db2) => (Recorded c, db2)
          | (Raised e, db2) => (Failed e, db2)
          end
      end
  end.

Definition GET_healthdata (authorization : option pystr) (db : Session)
  : response * Session :=
  match get_current_user authorization db with
  | (Raised e, db1) => (Failed e, db1)
  | (Returned current_user, db1) =>
      match get_health_data current_user db1 with
      | (Returned entries, db2) => (Listed (map HealthDataResponse.of_row entries), db2)
      | (Raised e, db2) => (Failed e, db2)
      end
  end.
End Handlers.

(** The errors a [ValidationError] holds for one field. *)
Definition errors_of_field (field : string)
  (r : ValidationError + HealthDataRequest.t) : ValidationError :=
  match r with
  | inl errors => List.filter (fun e => String.eqb (fst e) field) errors
  | inr _ => []
  end.

(** ** A codec and a database to run the handlers on

    The codec knows four tokens: "good" carries the subject 7, "ghost" the
    subject 99, "nosub" no subject, and "empty" no claim at all; any other
    token is refused. *)
Definition example_codec : TokenCodec :=
  {| decode_access_token := fun token =>
       if bool_decide (token = lit "good") then Some {[ "sub"%string := 7 ]}
       else if bool_decide (token = lit "ghost") then Some {[ "sub"%string := 99 ]}
       else if bool_decide (token = lit "nosub") then Some {[ "exp"%string := 1 ]}
       else if bool_decide (token = lit "empty") then Some ∅
       else None |}.

Definition ann : User.t := {| User.id := 7; User.columns := lit "ann" |}.
Definition bob : User.t := {| User.id := 8; User.columns := lit "bob" |}.

Definition example_session : Session :=
  {| users := [ann; bob];
     health_data :=
       [ {| HealthData.id := 1; HealthData.patient_id := 8;
            HealthData.weight := b64 0x11800000000000 6;
            HealthData.bp := lit "110/70";
            HealthData.glucose := b64 0x16800000000000 6;
            HealthData.timestamp := 900 |} ];
     now := 1000 |}.

(** ** Requests in sequence

    The two routes as one service, and a run of requests against it, each
    on the database the one before left. *)
Inductive request :=
| POST (authorization : option pystr) (body : candidate)
| GET (authorization : option pystr).

Section Service.
Context {UD : UnicodeData} {TC : TokenCodec}.

Definition serve (r : request) (db : Session) : response * Session :=
  match r with
  | POST authorization body => POST_healthdata authorization body db
  | GET authorization => GET_healthdata authorization db
  end.

Fixpoint serve_all (rs : list request) (db : Session) : Session :=
  match rs with
  | [] => db
  | r :: rs' => serve_all rs' (snd (serve r db))
  end.
End Service.

(** What the service keeps true of the rows it stores: the patient of a row
    is a user of the database, and the values of a row are values the
    validators keep. *)
Definition row_has_owner (db : Session) (row : HealthData.t) : Prop :=
  exists user, In user (users db) /\ HealthData.patient_id row = User.id user.

Section RowValues.
Context {UD : UnicodeData}.

Definition row_is_valid (row : HealthData.t) : Prop :=
  validate_blood_pressure (HealthData.bp row) = Valid (HealthData.bp row)
  /\ float_lt (HealthData.weight row) float_zero = false
  /\ float_lt (HealthData.glucose row) float_zero = false.
End RowValues.

(** The number of submissions in a run of requests. *)
Definition count_posts (rs : list request) : nat :=
  length (List.filter (fun r => match r with POST _ _ => true | GET _ => false end) rs).

(** A database in which both users have records, in no order of owner. *)
Definition record_of_bob : HealthData.t :=
  {| HealthData.id := 1; HealthData.patient_id := 8;
     HealthData.weight := b64 0x11800000000000 6;
     HealthData.bp := lit "110/70";
     HealthData.glucose := b64 0x16800000000000 6;
     HealthData.timestamp := 900 |}.

Definition record_of_ann : HealthData.t :=
  {| HealthData.id := 2; HealthData.patient_id := 7;
     HealthData.weight := b64 0x10400000000000 6;
     HealthData.bp := lit "125/85";
     HealthData.glucose := b64 0x16800000000000 6;
     HealthData.timestamp := 950 |}.

Definition later_record_of_bob : HealthData.t :=
  {| HealthData.id := 3; HealthData.patient_id := 8;
     HealthData.weight := b64 0x11c00000000000 6;
     HealthData.bp := lit "115/75";
     HealthData.glucose := b64 0x17000000000000 6;
     HealthData.timestamp := 990 |}.

Definition busy_session : Session :=
  {| users := [ann; bob];
     health_data := [record_of_bob; record_of_ann; later_record_of_bob];
     now := 1000 |}.

(** [math.isfinite] *)
Definition float_is_finite (x : float) : bool :=
  match x with
  | S754_zero _ | S754_finite _ _ _ => true
  | S754_infinity _ | S754_nan => false
  end.

(** [math.isnan] *)
Definition float_is_nan (x : float) : bool :=
  match x with S754_nan => true | _ => false end.

(** The lower-case letter of an ASCII character. *)
Definition ascii_lower (c : N) : N := if in_range 65 90 c then (c + 32)%N else c.

(** A codec that differs from [example_codec] on the empty token only. *)
Definition lenient_codec : TokenCodec :=
  {| decode_access_token := fun token =>
       if bool_decide (token = []) then Some {[ "sub"%string := 8 ]}
       else @decode_access_token example_codec token |}.

(** * Properties *)

(** ** The runtime on examples *)

Section StringExamples.
#[local] Existing Instance ascii_unicode_data.

Example py_int_newline : py_int (lit "80" ++ [NEWLINE]) = Some 80.
Proof. reflexivity. Qed.

Example py_int_underscore : py_int (lit "1_0") = Some 10.
Proof. reflexivity. Qed.

Example py_int_bad :
  map py_int [lit "_10"; lit "10_"; lit "1__0"; lit "+-5"; lit ""; lit " ";
              lit " 7 7"; lit "- 5"; [28%N; 53%N]; lit "0x10"]
  = [None; None; None; None; None; None; None; None; None; None].
Proof. reflexivity. Qed.

Example py_int_good :
  map py_int [lit "007"; lit "+5"; lit "-5"; [133%N; 53%N]; [160%N; 53%N; 8195%N]]
  = [Some 7; Some 5; Some (-5); Some 5; Some 5].
Proof. reflexivity. Qed.

Example str_split_examples :
  str_split SLASH (lit "120/80") = [lit "120"; lit "80"]
  /\ str_split SLASH (lit "") = [[]]
  /\ str_split SLASH (lit "/") = [[]; []]
  /\ str_split SLASH (lit "ab/") = [lit "ab"; []].
Proof. repeat split. Qed.

Example str_split_whitespace_examples :
  str_split_whitespace (lit "  a  b ") = [lit "a"; lit "b"]
  /\ str_split_whitespace (lit "") = []
  /\ str_split_whitespace (lit "Bearer x") = [lit "Bearer"; lit "x"].
Proof. repeat split. Qed.

Example str_lower_example : str_lower (lit "BeArEr") = lit "bearer".
Proof. reflexivity. Qed.
End StringExamples.

Section BloodPressureExamples.
#[local] Existing Instance ascii_unicode_data.

Example bp_plain : validate_blood_pressure (lit "120/80") = Valid (lit "120/80").
Proof. reflexivity. Qed.

Example bp_spaces : validate_blood_pressure (lit "1 20/ 80") = Valid (lit "120/80").
Proof. reflexivity. Qed.

Example bp_dash : validate_blood_pressure (lit "120-80") = ValueError MSG_BP_FORMAT.
Proof. reflexivity. Qed.

Example bp_low_systolic : validate_blood_pressure (lit "60/80") = ValueError MSG_SYSTOLIC.
Proof. reflexivity. Qed.

Example bp_low_diastolic : validate_blood_pressure (lit "120/30") = ValueError MSG_DIASTOLIC.
Proof. reflexivity. Qed.

Example bp_trailing_newline :
  validate_blood_pressure (lit "120/80" ++ [NEWLINE]) = Valid (lit "120/80" ++ [NEWLINE]).
Proof. reflexivity. Qed.

Example bp_tab : validate_blood_pressure (lit "120/" ++ [TAB] ++ lit "80") = ValueError MSG_BP_FORMAT.
Proof. reflexivity. Qed.

Example bp_four_digits : validate_blood_pressure (lit "1200/80") = ValueError MSG_BP_FORMAT.
Proof. reflexivity. Qed.
End BloodPressureExamples.

(** [\d] and [int] know the digits of every script: "١٢٠/٨٠" is accepted as
    it is, and read as 120 over 80. *)
Example bp_arabic_indic :
  @validate_blood_pressure arabic_indic_unicode_data
    [1633; 1634; 1632; SLASH; 1640; 1632]%N
  = Valid [1633; 1634; 1632; SLASH; 1640; 1632]%N
  /\ @unpack_two_ints arabic_indic_unicode_data
       [[1633; 1634; 1632]; [1640; 1632]]%N = Some (120, 80)
  /\ @validate_blood_pressure ascii_unicode_data
       [1633; 1634; 1632; SLASH; 1640; 1632]%N
     = ValueError MSG_BP_FORMAT.
Proof. repeat split. Qed.

Example round_70_005 :
  float_round (b64 0x118051eb851eb8 6) 2 = b64 0x11800000000000 6.
Proof. vm_compute. reflexivity. Qed.

Example round_tie_to_even_down :
  float_round (b64 0x10000000000000 (-3)) 2 = b64 0x1eb851eb851eb8 (-4).
Proof. vm_compute. reflexivity. Qed.

Example round_tie_to_even_up :
  float_round (b64 0x18000000000000 (-2)) 2 = b64 0x1851eb851eb852 (-2).
Proof. vm_compute. reflexivity. Qed.

Example round_0_005 :
  float_round (b64 0x147ae147ae147b (-8)) 2 = b64 0x147ae147ae147b (-7).
Proof. vm_compute. reflexivity. Qed.

Example round_2_675 :
  float_round (b64 0x15666666666666 1) 2 = b64 0x155c28f5c28f5c 1.
Proof. vm_compute. reflexivity. Qed.

Example round_large :
  float_round (b64 0x10f0cf064dd592 73) 2 = b64 0x10f0cf064dd592 73
  /\ float_round (b64 0x1c12218377de6b 46) 2 = b64 0x1c12218377de6b 46
  /\ float_round (b64 0x147ae147ae147c 46) 2 = b64 0x147ae147ae147c 46.
Proof. vm_compute. repeat split. Qed.

Example round_tiny :
  float_round (S754_finite false 1 (-1074)) 2 = S754_zero false
  /\ float_round (S754_finite true 0x10624dd2f1a9fc (-62)) 2 = S754_zero true.
Proof. vm_compute. split; reflexivity. Qed.

Example round_0_3 :
  float_round (b64 0x13333333333334 (-2)) 2 = b64 0x13333333333333 (-2).
Proof. vm_compute. reflexivity. Qed.

Section StringFacts.
Context {UD : UnicodeData}.

Lemma decimal_ascii_or_unicode (c : N) :
  Py_UNICODE_ISDECIMAL c = true ->
  ((48 <= c <= 57)%N /\ Py_UNICODE_TODECIMAL c = Some (c - 48)%N)
  \/ ((128 <= c)%N /\ exists d, Py_UNICODE_TODECIMAL c = Some d /\ (d < 10)%N
                                /\ Py_UNICODE_ISSPACE c = false).
Proof.
  unfold Py_UNICODE_ISDECIMAL, Py_UNICODE_TODECIMAL, in_range.
  destruct (N.ltb_spec c 128).
  - destruct (N.leb_spec 48 c); destruct (N.leb_spec c 57); simpl;
      try discriminate; intros _; left; split; [lia | reflexivity].
  - destruct (unicode_todecimal c) as [d|] eqn:E; [|discriminate].
    intros _. right. split; [assumption|]. exists d.
    repeat split; eauto using todecimal_digit, todecimal_not_space.
Qed.

Lemma decimal_not_space (c : N) :
  Py_UNICODE_ISDECIMAL c = true -> Py_UNICODE_ISSPACE c = false.
Proof.
  intros H. destruct (decimal_ascii_or_unicode c H) as [[Hc _]|[_ (d & _ & _ & Hs)]];
    [|assumption].
  not_space.
Qed.

Lemma decimal_not_slash (c : N) : Py_UNICODE_ISDECIMAL c = true -> c <> SLASH.
Proof.
  intros H ->. destruct (decimal_ascii_or_unicode _ H) as [[Hc _]|[Hc _]];
    unfold SLASH in Hc; lia.
Qed.

Lemma decimal_not_newline (c : N) : Py_UNICODE_ISDECIMAL c = true -> c <> NEWLINE.
Proof.
  intros H ->. destruct (decimal_ascii_or_unicode _ H) as [[Hc _]|[Hc _]];
    unfold NEWLINE in Hc; lia.
Qed.

(** *** [re.match]: what a greedy repetition followed by [k] accepts *)

Lemma sre_repeat_stop (k : nat -> pystr -> bool) lo pos s :
  Nat.eqb lo 0 && k pos s = true <-> lo = 0%nat /\ k (pos + 0)%nat s = true.
Proof. rewrite andb_true_iff, Nat.eqb_eq, Nat.add_0_r. reflexivity. Qed.

Lemma sre_repeat_spec cs k : forall hi lo pos s,
  sre_repeat cs lo hi pos s k = true <->
  exists pre rest,
    s = pre ++ rest /\ forallb (charset_match cs) pre = true
    /\ (lo <= length pre <= hi)%nat /\ k (pos + length pre)%nat rest = true.
Proof.
  induction hi as [|hi IH]; intros lo pos s; simpl.
  - rewrite sre_repeat_stop. split.
    + intros [-> Hk]. exists [], s. repeat split; auto.
    + intros (pre & rest & -> & _ & Hlen & Hk).
      destruct pre; simpl in *; [|lia]. split; [lia|assumption].
  - destruct s as [|c s'].
    + rewrite sre_repeat_stop. split.
      * intros [-> Hk]. exists [], []. repeat split; auto. simpl. lia.
      * intros (pre & rest & E & _ & Hlen & Hk).
        destruct pre; [|discriminate E]. simpl in *. subst rest.
        split; [lia|assumption].
    + rewrite orb_true_iff, andb_true_iff, IH, sre_repeat_stop. split.
      * intros [[Hc (pre & rest & -> & Hall & Hlen & Hk)]|[-> Hk]].
        -- exists (c :: pre), rest. simpl. rewrite Hc, Hall.
           replace (pos + S (length pre))%nat with (S pos + length pre)%nat by lia.
           repeat split; auto; lia.
        -- exists [], (c :: s'). repeat split; auto. simpl. lia.
      * intros (pre & rest & E & Hall & Hlen & Hk). destruct pre as [|c' pre].
        -- right. simpl in *. subst rest. split; [lia|assumption].
        -- left. simpl in *. injection E as <- ->.
           apply andb_true_iff in Hall as [Hc Hall]. split; [assumption|].
           exists pre, rest. rewrite Nat.add_succ_r in Hk.
           repeat split; auto; lia.
Qed.

Lemma at_end_spec (rest : pystr) :
  at_end rest = true <-> rest = [] \/ rest = [NEWLINE].
Proof.
  destruct rest as [|c [|c' rest]]; simpl.
  - tauto.
  - rewrite N.eqb_eq. split; [intros ->; auto|intros [H|H]; [discriminate|congruence]].
  - split; [discriminate|intros [H|H]; discriminate].
Qed.

(** What the pattern of the blood pressure accepts: two or three digits, a
    slash, two or three digits, and then the end of the text or one newline
    that ends it. *)
Lemma re_match_BP_PATTERN (s : pystr) :
  re_match BP_PATTERN s = true <->
  exists d1 d2 tail,
    s = d1 ++ SLASH :: d2 ++ tail
    /\ forallb Py_UNICODE_ISDECIMAL d1 = true /\ (2 <= length d1 <= 3)%nat
    /\ forallb Py_UNICODE_ISDECIMAL d2 = true /\ (2 <= length d2 <= 3)%nat
    /\ (tail = [] \/ tail = [NEWLINE]).
Proof.
  unfold re_match, BP_PATTERN. cbn [sre_match Nat.eqb andb].
  rewrite sre_repeat_spec. split.
  - intros (d1 & rest & -> & H1 & L1 & Hk). destruct rest as [|c rest]; [discriminate|].
    apply andb_true_iff in Hk as [Hc Hk]. apply N.eqb_eq in Hc. subst c.
    apply sre_repeat_spec in Hk as (d2 & tail & -> & H2 & L2 & Hk).
    rewrite andb_true_r in Hk. apply at_end_spec in Hk.
    exists d1, d2, tail. auto 10.
  - intros (d1 & d2 & tail & -> & H1 & L1 & H2 & L2 & Ht).
    exists d1, (SLASH :: d2 ++ tail). repeat split; try assumption; try lia.
    cbn [charset_match]. rewrite N.eqb_refl. cbn [andb]. apply sre_repeat_spec.
    exists d2, tail. repeat split; try assumption; try lia.
    rewrite andb_true_r. apply at_end_spec. assumption.
Qed.
End StringFacts.

Section IntFacts.
Context {UD : UnicodeData}.

Lemma str_split_no_sep sep (s : pystr) :
  ~ In sep s -> str_split sep s = [s].
Proof.
  induction s as [|c s IH]; simpl; intros Hn; [reflexivity|].
  destruct (N.eqb_spec c sep) as [->|_]; [tauto|].
  rewrite IH by tauto. reflexivity.
Qed.

Lemma str_split_app sep (a b : pystr) :
  ~ In sep a -> str_split sep (a ++ sep :: b) = a :: str_split sep b.
Proof.
  induction a as [|c a IH]; simpl; intros Hn.
  - rewrite N.eqb_refl. reflexivity.
  - destruct (N.eqb_spec c sep) as [->|_]; [tauto|].
    rewrite IH by tauto. reflexivity.
Qed.

Lemma ascii_of_decimal_digit (c : N) :
  Py_UNICODE_ISDECIMAL c = true -> (48 <= ascii_of_decimal c <= 57)%N.
Proof.
  intros H. unfold ascii_of_decimal, decimal_of.
  destruct (decimal_ascii_or_unicode c H) as [[Hc ->]|[_ (d & -> & Hd & _)]]; lia.
Qed.

Lemma transform_digits (d tail : pystr) :
  forallb Py_UNICODE_ISDECIMAL d = true ->
  tail = [] \/ tail = [NEWLINE] ->
  transform_decimal_and_space (d ++ tail) = map ascii_of_decimal d ++ tail.
Proof.
  intros Hd Ht. induction d as [|c d IH]; simpl.
  - destruct Ht as [->| ->]; reflexivity.
  - simpl in Hd. apply andb_true_iff in Hd as [Hc Hd]. rewrite (IH Hd).
    destruct (decimal_ascii_or_unicode c Hc) as [[Hr E]|[Hr (x & E & Hx & Hs)]].
    + assert (Ea : ascii_of_decimal c = c)
        by (unfold ascii_of_decimal, decimal_of; rewrite E; lia).
      rewrite Ea. destruct (N.ltb_spec c 127); [reflexivity|lia].
    + assert (Ea : ascii_of_decimal c = (48 + x)%N)
        by (unfold ascii_of_decimal, decimal_of; rewrite E; reflexivity).
      rewrite Ea, Hs, E. destruct (N.ltb_spec c 127); [lia|reflexivity].
Qed.

Lemma ascii_digit_in_range (c : N) :
  (48 <= c <= 57)%N -> ascii_digit c = Some (Z.of_N c - 48).
Proof. intros H. unfold ascii_digit, in_range. ncases. Qed.

Lemma long_digits_run (tail : pystr) :
  tail = [] \/ tail = [NEWLINE] ->
  forall ds acc,
    Forall (fun c => (48 <= c <= 57)%N) ds ->
    long_digits acc false (ds ++ tail)
    = Some (fold_left (fun a c => 10 * a + (Z.of_N c - 48)) ds acc, tail).
Proof.
  intros Ht. induction ds as [|c ds IH]; intros acc Hds; simpl.
  - destruct Ht as [->| ->]; reflexivity.
  - inversion Hds as [|? ? Hc Hds']; subst.
    rewrite (ascii_digit_in_range c Hc). apply IH. assumption.
Qed.

Lemma skip_space_digit (c : N) (s : pystr) :
  (48 <= c <= 57)%N -> skip_space (c :: s) = c :: s.
Proof.
  intros H. simpl. replace (Py_ISSPACE c) with false; [reflexivity|].
  unfold Py_ISSPACE, in_range. ncases.
Qed.

Lemma fold_digits_value (d : pystr) : forall acc,
  fold_left (fun a c => 10 * a + (Z.of_N c - 48)) (map ascii_of_decimal d) acc
  = fold_left (fun a c => 10 * a + digit_value c) d acc.
Proof.
  induction d as [|c d IH]; intros acc; simpl; [reflexivity|].
  rewrite IH. f_equal. unfold digit_value, ascii_of_decimal. lia.
Qed.

(** [int] reads a run of decimal digits, also when a newline follows it. *)
Lemma py_int_digits (d tail : pystr) :
  forallb Py_UNICODE_ISDECIMAL d = true -> d <> [] ->
  tail = [] \/ tail = [NEWLINE] ->
  py_int (d ++ tail) = Some (digits_value d).
Proof.
  intros Hd Hne Ht. unfold py_int. rewrite (transform_digits d tail Hd Ht).
  assert (Hall : Forall (fun c => (48 <= c <= 57)%N) (map ascii_of_decimal d)).
  { apply List.Forall_forall. intros x Hx. apply in_map_iff in Hx as (c & <- & Hc).
    apply ascii_of_decimal_digit. rewrite forallb_forall in Hd. auto. }
  unfold digits_value. rewrite <- fold_digits_value.
  destruct d as [|c d]; [congruence|]. simpl map in *. simpl app.
  inversion Hall as [|? ? Hc Hall']; subst.
  unfold long_from_string. rewrite (skip_space_digit _ _ Hc).
  replace ((ascii_of_decimal c =? 43)%N || (ascii_of_decimal c =? 45)%N) with false
    by (symmetry; ncases).
  rewrite (ascii_digit_in_range _ Hc), (long_digits_run tail Ht _ _ Hall').
  replace (ascii_of_decimal c =? 45)%N with false by (symmetry; ncases).
  simpl fold_left. replace (10 * 0 + (Z.of_N (ascii_of_decimal c) - 48))
    with (Z.of_N (ascii_of_decimal c) - 48) by lia.
  destruct Ht as [->| ->]; reflexivity.
Qed.
End IntFacts.

Section BloodPressureFacts.
Context {UD : UnicodeData}.

Lemma str_split_nonempty sep (s : pystr) : str_split sep s <> [].
Proof.
  destruct s as [|c s]; simpl; [discriminate|].
  destruct (c =? sep)%N; [discriminate|]. destruct (str_split sep s); discriminate.
Qed.

Lemma str_split_one sep : forall s b : pystr, str_split sep s = [b] -> s = b.
Proof.
  induction s as [|c s IH]; simpl; intros b H.
  - congruence.
  - destruct (c =? sep)%N.
    + injection H as _ H. destruct (str_split_nonempty _ _ H).
    + destruct (str_split sep s) as [|w ws] eqn:E;
        [destruct (str_split_nonempty _ _ E)|].
      injection H as <- ->. f_equal. apply IH. reflexivity.
Qed.

Lemma str_split_two sep : forall s a b : pystr,
  str_split sep s = [a; b] -> s = a ++ sep :: b.
Proof.
  induction s as [|c s IH]; simpl; intros a b H.
  - discriminate.
  - destruct (N.eqb_spec c sep) as [->|_].
    + injection H as <- H. simpl. f_equal. apply (str_split_one _ _ _ H).
    + destruct (str_split sep s) as [|w ws] eqn:E; [discriminate|].
      injection H as <- ->. simpl. f_equal. apply IH. reflexivity.
Qed.

Lemma digits_without (x : N) (d : pystr) :
  Py_UNICODE_ISDECIMAL x = false ->
  forallb Py_UNICODE_ISDECIMAL d = true -> ~ In x d.
Proof.
  intros Hx Hd Hin. rewrite forallb_forall in Hd. rewrite (Hd _ Hin) in Hx. discriminate.
Qed.

Lemma slash_not_decimal : Py_UNICODE_ISDECIMAL SLASH = false.
Proof. reflexivity. Qed.

Lemma two_or_three_digits_spec (d : pystr) :
  two_or_three_digits d = true <->
  forallb Py_UNICODE_ISDECIMAL d = true /\ (2 <= length d <= 3)%nat.
Proof.
  unfold two_or_three_digits.
  rewrite !andb_true_iff, !Nat.leb_le. tauto.
Qed.

Lemma spec_bp_pattern_spec (s : pystr) :
  spec_bp_pattern s = true <->
  exists d1 d2,
    s = d1 ++ SLASH :: d2
    /\ forallb Py_UNICODE_ISDECIMAL d1 = true /\ (2 <= length d1 <= 3)%nat
    /\ forallb Py_UNICODE_ISDECIMAL d2 = true /\ (2 <= length d2 <= 3)%nat.
Proof.
  unfold spec_bp_pattern. split.
  - destruct (str_split SLASH s) as [|d1 [|d2 [|? ?]]] eqn:E; try discriminate.
    rewrite andb_true_iff, !two_or_three_digits_spec. intros [[? ?] [? ?]].
    exists d1, d2. split; [apply str_split_two; assumption|]. tauto.
  - intros (d1 & d2 & -> & H1 & L1 & H2 & L2).
    rewrite str_split_app, str_split_no_sep
      by (apply digits_without; auto using slash_not_decimal).
    rewrite andb_true_iff, !two_or_three_digits_spec. tauto.
Qed.

(** The pattern of the code accepts what the pattern of the specification
    accepts, and the same followed by one newline. *)
Lemma re_match_spec_bp_pattern (s : pystr) :
  re_match BP_PATTERN s = true <->
  spec_bp_pattern s = true
  \/ exists s0, s = s0 ++ [NEWLINE] /\ spec_bp_pattern s0 = true.
Proof.
  rewrite re_match_BP_PATTERN. split.
  - intros (d1 & d2 & tail & -> & H1 & L1 & H2 & L2 & [->| ->]).
    + left. apply spec_bp_pattern_spec. exists d1, d2. rewrite app_nil_r. auto.
    + right. exists (d1 ++ SLASH :: d2). split.
      * rewrite <- app_assoc. reflexivity.
      * apply spec_bp_pattern_spec. exists d1, d2. auto.
  - intros [H|(s0 & -> & H)]; apply spec_bp_pattern_spec in H
      as (d1 & d2 & -> & H1 & L1 & H2 & L2).
    + exists d1, d2, []. rewrite app_nil_r. auto 10.
    + exists d1, d2, [NEWLINE]. rewrite <- app_assoc. simpl. auto 10.
Qed.

Lemma str_replace_remove (old : N) (s : pystr) :
  str_replace old [] s = List.filter (fun c => negb (c =? old)%N) s.
Proof.
  unfold str_replace. induction s as [|c s IH]; simpl; [reflexivity|].
  destruct (c =? old)%N; simpl; rewrite IH; reflexivity.
Qed.

Lemma in_str_replace (old x : N) (s : pystr) :
  In x (str_replace old [] s) <-> In x s /\ x <> old.
Proof.
  rewrite str_replace_remove, filter_In, negb_true_iff, N.eqb_neq. reflexivity.
Qed.


Lemma validate_blood_pressure_no_match (v : pystr) :
  re_match BP_PATTERN (str_replace SPACE [] v) = false ->
  validate_blood_pressure v = ValueError MSG_BP_FORMAT.
Proof. intros H. unfold validate_blood_pressure. rewrite H. reflexivity. Qed.

Lemma unpack_matched (d1 d2 tail : pystr) :
  forallb Py_UNICODE_ISDECIMAL d1 = true -> (2 <= length d1 <= 3)%nat ->
  forallb Py_UNICODE_ISDECIMAL d2 = true -> (2 <= length d2 <= 3)%nat ->
  tail = [] \/ tail = [NEWLINE] ->
  unpack_two_ints (str_split SLASH (d1 ++ SLASH :: d2 ++ tail))
  = Some (digits_value d1, digits_value d2).
Proof.
  intros H1 L1 H2 L2 Ht.
  assert (N1 : d1 <> []) by (intros ->; simpl in L1; lia).
  assert (N2 : d2 <> []) by (intros ->; simpl in L2; lia).
  rewrite str_split_app by (apply digits_without; auto using slash_not_decimal).
  rewrite str_split_no_sep.
  - unfold unpack_two_ints. simpl map.
    rewrite (py_int_digits d2 tail H2 N2 Ht).
    rewrite <- (app_nil_r d1) at 1. rewrite (py_int_digits d1 [] H1 N1) by auto.
    reflexivity.
  - intros Hin. apply in_app_or in Hin as [Hin|Hin].
    + revert Hin. apply digits_without; auto using slash_not_decimal.
    + destruct Ht as [->| ->]; simpl in Hin; [tauto|].
      destruct Hin as [Hin|[]]. discriminate Hin.
Qed.

Lemma validate_blood_pressure_matched (v d1 d2 tail : pystr) :
  str_replace SPACE [] v = d1 ++ SLASH :: d2 ++ tail ->
  forallb Py_UNICODE_ISDECIMAL d1 = true -> (2 <= length d1 <= 3)%nat ->
  forallb Py_UNICODE_ISDECIMAL d2 = true -> (2 <= length d2 <= 3)%nat ->
  tail = [] \/ tail = [NEWLINE] ->
  validate_blood_pressure v
  = range_checks (digits_value d1) (digits_value d2) (str_replace SPACE [] v).
Proof.
  intros E H1 L1 H2 L2 Ht. unfold validate_blood_pressure.
  assert (M : re_match BP_PATTERN (str_replace SPACE [] v) = true).
  { apply re_match_BP_PATTERN. exists d1, d2, tail. auto 10. }
  rewrite M. simpl negb. cbv iota. rewrite E at 1.
  rewrite (unpack_matched d1 d2 tail) by assumption. reflexivity.
Qed.
End BloodPressureFacts.

(** ** The blood-pressure validator *)

Section BloodPressureClaims.
Context {UD : UnicodeData}.

Lemma newline_not_decimal : Py_UNICODE_ISDECIMAL NEWLINE = false.
Proof. reflexivity. Qed.

Lemma spec_bp_pattern_no_newline (s : pystr) :
  spec_bp_pattern s = true -> ~ In NEWLINE s.
Proof.
  intros H Hin. apply spec_bp_pattern_spec in H as (d1 & d2 & -> & H1 & _ & H2 & _).
  apply in_app_or in Hin as [Hin|[Hin|Hin]].
  - revert Hin. apply digits_without; auto using newline_not_decimal.
  - discriminate Hin.
  - revert Hin. apply digits_without; auto using newline_not_decimal.
Qed.

Lemma range_checks_not_format (systolic diastolic : Z) (s : pystr) :
  range_checks systolic diastolic s <> ValueError MSG_BP_FORMAT.
Proof.
  unfold range_checks.
  destruct ((systolic <? 70) || (systolic >? 250)); [discriminate|].
  destruct ((diastolic <? 40) || (diastolic >? 150)); discriminate.
Qed.

(** C3, as amended.  The validator removes the ASCII space characters and
    nothing else, whatever the text.  It passes the check of the format when
    what is left is exactly two or three digits, a slash and two or three
    digits; it fails with the error of the format when what is left neither
    is that nor is that followed by one final newline.  "120-80" fails, and
    "1 20/ 80" is accepted and kept as "120/80". *)
Theorem bp_format_check (v : pystr) :
  str_replace SPACE [] v = List.filter (fun c => negb (c =? SPACE)%N) v
  /\ (spec_bp_pattern (str_replace SPACE [] v) = true ->
      validate_blood_pressure v <> ValueError MSG_BP_FORMAT)
  /\ (spec_bp_pattern (str_replace SPACE [] v) = false ->
      (forall s0, str_replace SPACE [] v = s0 ++ [NEWLINE] ->
                  spec_bp_pattern s0 = false) ->
      validate_blood_pressure v = ValueError MSG_BP_FORMAT)
  /\ validate_blood_pressure (lit "120-80") = ValueError MSG_BP_FORMAT
  /\ validate_blood_pressure (lit "1 20/ 80") = Valid (lit "120/80").
Proof.
  split; [apply str_replace_remove|]. split; [|split].
  - intros Hs. apply spec_bp_pattern_spec in Hs as (d1 & d2 & E & H1 & L1 & H2 & L2).
    rewrite (validate_blood_pressure_matched v d1 d2 []); auto.
    + apply range_checks_not_format.
    + rewrite app_nil_r. assumption.
  - intros Hs Hslip. apply validate_blood_pressure_no_match.
    destruct (re_match BP_PATTERN (str_replace SPACE [] v)) eqn:M; [|reflexivity].
    apply re_match_spec_bp_pattern in M as [M|(s0 & E & M)]; [congruence|].
    rewrite (Hslip s0 E) in M. discriminate M.
  - split; reflexivity.
Qed.

(** C4.  When the text left after the removal of the spaces matches the
    pattern, it is a run of digits, a slash and a run of digits, with at most
    a final newline behind them (none when the text is the exact pattern);
    the two runs are read as the systolic and the diastolic integer; the
    validator fails when the systolic one is outside [70, 250] or the
    diastolic one outside [40, 150], and otherwise keeps that text, in which
    no whitespace stands before the end. *)
Theorem bp_range_checks_after_match (v : pystr) :
  re_match BP_PATTERN (str_replace SPACE [] v) = true ->
  exists d1 d2 tail,
    str_replace SPACE [] v = d1 ++ SLASH :: d2 ++ tail
    /\ (tail = [] \/ tail = [NEWLINE])
    /\ (spec_bp_pattern (str_replace SPACE [] v) = true -> tail = [])
    /\ forallb Py_UNICODE_ISDECIMAL (d1 ++ d2) = true
    /\ (forall c, In c (d1 ++ SLASH :: d2) -> Py_UNICODE_ISSPACE c = false)
    /\ unpack_two_ints (str_split SLASH (str_replace SPACE [] v))
       = Some (digits_value d1, digits_value d2)
    /\ (digits_value d1 < 70 \/ 250 < digits_value d1
        \/ digits_value d2 < 40 \/ 150 < digits_value d2 ->
        exists msg, validate_blood_pressure v = ValueError msg)
    /\ (70 <= digits_value d1 <= 250 -> 40 <= digits_value d2 <= 150 ->
        validate_blood_pressure v = Valid (str_replace SPACE [] v)).
Proof.
  intros M. apply re_match_BP_PATTERN in M as (d1 & d2 & tail & E & H1 & L1 & H2 & L2 & Ht).
  exists d1, d2, tail. split; [assumption|]. split; [assumption|].
  split; [|split; [|split; [|split; [|split]]]].
  - intros Hs. destruct Ht as [->| ->]; [reflexivity|].
    destruct (spec_bp_pattern_no_newline _ Hs). rewrite E.
    apply in_or_app. right. right. apply in_or_app. right. left. reflexivity.
  - rewrite forallb_app, H1, H2. reflexivity.
  - intros c Hin. apply in_app_or in Hin as [Hin|[<-|Hin]]; [|reflexivity|];
      apply decimal_not_space; rewrite forallb_forall in H1, H2; auto.
  - rewrite E. apply unpack_matched; assumption.
  - intros Hout. rewrite (validate_blood_pressure_matched v d1 d2 tail) by assumption.
    unfold range_checks.
    destruct ((digits_value d1 <? 70) || (digits_value d1 >? 250)) eqn:Es; [eauto|].
    destruct ((digits_value d2 <? 40) || (digits_value d2 >? 150)) eqn:Ed; [eauto|].
    apply orb_false_iff in Es as [Es1 Es2]. apply orb_false_iff in Ed as [Ed1 Ed2].
    apply Z.ltb_ge in Es1, Ed1. rewrite Z.gtb_ltb in Es2, Ed2.
    apply Z.ltb_ge in Es2, Ed2. lia.
  - intros Hs Hd. rewrite (validate_blood_pressure_matched v d1 d2 tail) by assumption.
    unfold range_checks.
    replace ((digits_value d1 <? 70) || (digits_value d1 >? 250)) with false.
    + replace ((digits_value d2 <? 40) || (digits_value d2 >? 150)) with false;
        [reflexivity|].
      symmetry. apply orb_false_iff. rewrite Z.gtb_ltb, !Z.ltb_ge. lia.
    + symmetry. apply orb_false_iff. rewrite Z.gtb_ltb, !Z.ltb_ge. lia.
Qed.


End BloodPressureClaims.

(** C4 on "1 20/ 80": the pattern matches what is left of it. *)
Lemma bp_range_checks_after_match_witness :
  @re_match ascii_unicode_data BP_PATTERN (str_replace SPACE [] (lit "1 20/ 80")) = true
  /\ exists d1 d2 tail,
    str_replace SPACE [] (lit "1 20/ 80") = d1 ++ SLASH :: d2 ++ tail
    /\ (tail = [] \/ tail = [NEWLINE])
    /\ (@spec_bp_pattern ascii_unicode_data (str_replace SPACE [] (lit "1 20/ 80")) = true
        -> tail = [])
    /\ forallb (@Py_UNICODE_ISDECIMAL ascii_unicode_data) (d1 ++ d2) = true
    /\ (forall c, In c (d1 ++ SLASH :: d2) -> Py_UNICODE_ISSPACE c = false)
    /\ @unpack_two_ints ascii_unicode_data
         (str_split SLASH (str_replace SPACE [] (lit "1 20/ 80")))
       = Some (@digits_value ascii_unicode_data d1, @digits_value ascii_unicode_data d2)
    /\ (@digits_value ascii_unicode_data d1 < 70 \/ 250 < @digits_value ascii_unicode_data d1
        \/ @digits_value ascii_unicode_data d2 < 40
        \/ 150 < @digits_value ascii_unicode_data d2 ->
        exists msg, @validate_blood_pressure ascii_unicode_data (lit "1 20/ 80")
                    = ValueError msg)
    /\ (70 <= @digits_value ascii_unicode_data d1 <= 250 ->
        40 <= @digits_value ascii_unicode_data d2 <= 150 ->
        @validate_blood_pressure ascii_unicode_data (lit "1 20/ 80")
        = Valid (str_replace SPACE [] (lit "1 20/ 80"))).
Proof.
  split; [reflexivity|].
  apply (@bp_range_checks_after_match ascii_unicode_data (lit "1 20/ 80")).
  reflexivity.
Defined.

(** The format check of C3 on "12 0-80" followed by a newline: it is not the
    pattern, nor the pattern followed by a newline, and it is refused. *)
Lemma bp_format_check_witness :
  @validate_blood_pressure ascii_unicode_data (lit "12 0-80" ++ [NEWLINE])
  = ValueError MSG_BP_FORMAT.
Proof.
  refine (proj1 (proj2 (proj2
    (@bp_format_check ascii_unicode_data (lit "12 0-80" ++ [NEWLINE])))) eq_refl _).
  intros s0 E.
  change (str_replace SPACE [] (lit "12 0-80" ++ [NEWLINE]))
    with (lit "120-80" ++ [NEWLINE]) in E.
  apply app_inj_tail in E as [<- _]. reflexivity.
Defined.

(** C3 as the specification words it fails twice: with every whitespace
    character stripped, "120/<tab>80" is the exact pattern, and yet it is
    refused; and "120/80<newline>", which is not the exact pattern once its
    spaces are removed, is accepted, newline included. *)
Lemma bp_format_check_counterexample :
  @spec_bp_pattern ascii_unicode_data
    (spec_strip_whitespace (lit "120/" ++ [TAB] ++ lit "80")) = true
  /\ @validate_blood_pressure ascii_unicode_data (lit "120/" ++ [TAB] ++ lit "80")
     = ValueError MSG_BP_FORMAT
  /\ @spec_bp_pattern ascii_unicode_data
       (str_replace SPACE [] (lit "120/80" ++ [NEWLINE])) = false
  /\ @validate_blood_pressure ascii_unicode_data (lit "120/80" ++ [NEWLINE])
     = Valid (lit "120/80" ++ [NEWLINE]).
Proof. repeat split. Qed.

(** ** The validators of the two numbers *)

Lemma float_lt_zero_not_le (w : float) :
  float_lt float_zero w = true -> float_le w float_zero = false.
Proof.
  unfold float_lt, float_le, float_zero, SFltb, SFleb.
  destruct w as [s|s| |s m e]; try destruct s; simpl; intros H;
    first [discriminate H | reflexivity].
Qed.

(** *** [round(v, 2)] is the input rounded to 2 decimal places *)

(** The number of binary digits of a mantissa. *)
Lemma digits2_pos_size (p : positive) : digits2_pos p = Pos.size p.
Proof. induction p; simpl; congruence. Qed.

Lemma Zdigits2_nonneg (m : Z) : 0 <= Zdigits2 m.
Proof. destruct m; simpl; lia. Qed.

Lemma Zdigits2_gt (m : Z) : 0 <= m -> m < 2 ^ Zdigits2 m.
Proof.
  destruct m as [|p|p]; simpl; intros H; try lia.
  rewrite digits2_pos_size. pose proof (Pos.size_gt p) as G.
  apply Pos2Z.pos_lt_pos in G. rewrite Pos2Z.inj_pow in G. exact G.
Qed.

Lemma Zdigits2_le_double (m : Z) : 0 < m -> 2 ^ Zdigits2 m <= 2 * m.
Proof.
  destruct m as [|p|p]; simpl; intros H; try lia.
  rewrite digits2_pos_size. pose proof (Pos.size_le p) as G.
  apply Pos2Z.pos_le_pos in G. rewrite Pos2Z.inj_pow in G. exact G.
Qed.

Lemma Zdigits2_upper (m k : Z) : 0 <= k -> 0 <= m < 2 ^ k -> Zdigits2 m <= k.
Proof.
  intros Hk [H0 H]. destruct (Z.eq_dec m 0) as [->|Hm]; [simpl; lia|].
  pose proof (Zdigits2_le_double m ltac:(lia)) as G.
  pose proof (Zdigits2_nonneg m) as Hd.
  destruct (Z.le_gt_cases (Zdigits2 m) k) as [L|L]; [exact L|].
  assert (2 ^ (k + 1) <= 2 ^ Zdigits2 m) by (apply Z.pow_le_mono_r; lia).
  rewrite Z.pow_add_r in H1 by lia. lia.
Qed.

Lemma Zdigits2_lower (m k : Z) : 0 <= k -> 2 ^ k <= m -> k < Zdigits2 m.
Proof.
  intros Hk H. assert (0 < 2 ^ k) by (apply Z.pow_pos_nonneg; lia).
  pose proof (Zdigits2_gt m ltac:(lia)) as G.
  pose proof (Zdigits2_nonneg m) as Hd.
  destruct (Z.lt_ge_cases k (Zdigits2 m)) as [L|L]; [exact L|].
  assert (2 ^ Zdigits2 m <= 2 ^ k) by (apply Z.pow_le_mono_r; lia). lia.
Qed.

(** An invariant of [f] indexed by the number of steps holds after
    [iter_pos f n]. *)
Lemma iter_pos_invariant {A} (f : A -> A) (P : Z -> A -> Prop) :
  (forall k x, P k x -> P (k + 1) (f x)) ->
  forall n k x, P k x -> P (k + Zpos n) (SpecFloat.iter_pos f n x).
Proof.
  intros Hf. induction n as [n IH|n IH|]; intros k x Hx; simpl.
  - replace (k + Zpos n~1) with (k + 1 + Zpos n + Zpos n) by lia. auto.
  - replace (k + Zpos n~0) with (k + Zpos n + Zpos n) by lia. auto.
  - auto.
Qed.

Lemma loc_of_shr_record_of_loc m l : loc_of_shr_record (shr_record_of_loc m l) = l.
Proof. destruct l as [|[]]; reflexivity. Qed.

Lemma shr_m_shr_record_of_loc m l : shr_m (shr_record_of_loc m l) = m.
Proof. destruct l as [|[]]; reflexivity. Qed.

(** A shift by one bit halves the mantissa and keeps the place of [N / D],
    now between [m / 2] and [m / 2 + 1] for the divisor [2 * D]. *)
Lemma shr_1_inbetween (N D : Z) (mrs : shr_record) :
  0 < D -> 0 <= shr_m mrs ->
  inbetween N D (shr_m mrs) (loc_of_shr_record mrs) ->
  0 <= shr_m (shr_1 mrs)
  /\ inbetween N (D * 2) (shr_m (shr_1 mrs)) (loc_of_shr_record (shr_1 mrs))
  /\ Zdigits2 (shr_m (shr_1 mrs)) = Z.max 0 (Zdigits2 (shr_m mrs) - 1).
Proof.
  intros HD. destruct mrs as [m r s]. simpl shr_m at 1 2.
  destruct m as [|[p|p|]|p]; intros Hm; try lia;
    destruct r, s; simpl; intros H; repeat split; try lia.
Qed.

(** One more shift keeps the invariant, and so do [n] of them. *)
Lemma shifted_shr_1 (N D d k : Z) (mrs : shr_record) :
  0 < D -> shifted N D d k mrs -> shifted N D d (k + 1) (shr_1 mrs).
Proof.
  intros HD (Hk & Hm & Hin & Hd).
  assert (0 < D * 2 ^ k) by (apply Z.mul_pos_pos; [lia|apply Z.pow_pos_nonneg; lia]).
  destruct (shr_1_inbetween N (D * 2 ^ k) mrs) as (Hm' & Hin' & Hd'); try assumption.
  split; [lia|]. split; [lia|]. split.
  - rewrite Z.pow_add_r, Z.pow_1_r, Z.mul_assoc by lia. exact Hin'.
  - rewrite Hd', Hd. lia.
Qed.

Lemma shr_shifted (N D : Z) (m e n : Z) (l : location) :
  0 < D -> 0 <= m -> inbetween N D m l ->
  exists mrs',
    shr (shr_record_of_loc m l) e n = (mrs', e + Z.max 0 n)
    /\ shifted N D (Zdigits2 m) (Z.max 0 n) mrs'.
Proof.
  intros HD Hm Hin.
  assert (H0 : shifted N D (Zdigits2 m) 0 (shr_record_of_loc m l)).
  { split; [lia|]. rewrite shr_m_shr_record_of_loc, loc_of_shr_record_of_loc.
    rewrite Z.pow_0_r, Z.mul_1_r. pose proof (Zdigits2_nonneg m).
    split; [assumption|]. split; [assumption|]. lia. }
  destruct n as [|p|p]; simpl shr.
  - eexists. split; [f_equal; lia|exact H0].
  - eexists. split; [reflexivity|].
    replace (Z.max 0 (Zpos p)) with (0 + Zpos p) by lia.
    apply (iter_pos_invariant shr_1 (shifted N D (Zdigits2 m))); [|exact H0].
    intros k x. apply shifted_shr_1. exact HD.
  - eexists. split; [f_equal; lia|exact H0].
Qed.

(** [round_nearest_even] picks the nearer of [m] and [m + 1], the even one
    halfway. *)
Lemma round_nearest_even_spec (N D m : Z) (l : location) :
  0 < D -> inbetween N D m l ->
  m * D <= N <= (m + 1) * D
  /\ ((round_nearest_even m l = m /\ 2 * N <= (2 * m + 1) * D)
      \/ (round_nearest_even m l = m + 1 /\ (2 * m + 1) * D <= 2 * N))
  /\ (2 * N = (2 * m + 1) * D -> Z.even (round_nearest_even m l) = true).
Proof.
  intros HD. destruct l as [|[]]; simpl; intros H.
  - split; [lia|]. split; [left; lia|]. lia.
  - split; [lia|]. destruct (Z.even m) eqn:E.
    + split; [left; lia|auto].
    + split; [right; lia|]. intros _.
      replace (m + 1) with (Z.succ m) by lia.
      rewrite Z.even_succ, <- Z.negb_even, E. reflexivity.
  - split; [lia|]. split; [left; lia|]. lia.
  - split; [lia|]. split; [right; lia|]. lia.
Qed.

Lemma fexp64_eq (e : Z) : fexp64 e = Z.max (e - 53) (-1074).
Proof. reflexivity. Qed.

(** The second shift of [binary_round_aux] loses nothing. *)
Lemma shr_fexp_after_rounding (m M e : Z) :
  0 <= m -> (M = m \/ M = m + 1) ->
  fexp64 (Zdigits2 m + e) = e ->
  exists mrs'' k,
    shr_fexp prec emax M e loc_Exact = (mrs'', e + k)
    /\ 0 <= k <= 1
    /\ shr_m mrs'' * 2 ^ k = M
    /\ fexp64 (Zdigits2 (shr_m mrs'') + (e + k)) = e + k
    /\ (k = 1 -> shr_m mrs'' = 2 ^ 52).
Proof.
  intros Hm HM Hc. unfold shr_fexp. fold (fexp64 (Zdigits2 M + e)).
  rewrite fexp64_eq in *.
  pose proof (Zdigits2_nonneg m) as Hdm.
  pose proof (Zdigits2_gt m Hm) as Hgt.
  assert (HdM : Zdigits2 M = Zdigits2 m
                \/ (Zdigits2 M = Zdigits2 m + 1 /\ M = 2 ^ Zdigits2 m)).
  { destruct HM as [->| ->]; [auto|].
    destruct (Z.eq_dec (m + 1) (2 ^ Zdigits2 m)) as [E|E].
    - right. split; [|exact E].
      apply Z.le_antisymm.
      + apply Zdigits2_upper; [lia|]. rewrite Z.pow_add_r, Z.pow_1_r by lia. lia.
      + pose proof (Zdigits2_lower (m + 1) (Zdigits2 m) Hdm ltac:(lia)). lia.
    - left. apply Z.le_antisymm.
      + apply Zdigits2_upper; lia.
      + destruct (Z.eq_dec m 0) as [->|Hm0]; [simpl; lia|].
        pose proof (Zdigits2_le_double m ltac:(lia)) as Hle.
        destruct (Z.eq_dec (Zdigits2 m) 0) as [Z0|Z0]; [rewrite Z0 in *; simpl in *; lia|].
        assert (2 ^ (Zdigits2 m - 1) <= m + 1).
        { replace (Zdigits2 m) with (Zdigits2 m - 1 + 1) in Hle by lia.
          rewrite Z.pow_add_r, Z.pow_1_r in Hle by lia. lia. }
        pose proof (Zdigits2_lower (m + 1) (Zdigits2 m - 1) ltac:(lia) H). lia. }
  destruct HdM as [Ed|[Ed EM]].
  - exists (shr_record_of_loc M loc_Exact), 0. rewrite Ed.
    replace (Z.max (Zdigits2 m + e - 53) (-1074) - e) with 0 by lia.
    simpl shr. split; [f_equal; lia|]. split; [lia|].
    replace (e + 0) with e by lia. simpl shr_m. rewrite Z.pow_0_r, Z.mul_1_r, Ed.
    split; [reflexivity|]. split; [exact Hc|]. intros K; discriminate K.
  - destruct (Z.eq_dec (Z.max (Zdigits2 M + e - 53) (-1074)) e) as [E0|E0].
    + exists (shr_record_of_loc M loc_Exact), 0. rewrite E0, Z.sub_diag.
      simpl shr. split; [f_equal; lia|]. split; [lia|].
      replace (e + 0) with e by lia. simpl shr_m. rewrite Z.pow_0_r, Z.mul_1_r.
      split; [reflexivity|]. split; [exact E0|]. intros K; discriminate K.
    + assert (E1 : Z.max (Zdigits2 M + e - 53) (-1074) - e = 1) by lia.
      assert (Hpos : 1 <= Zdigits2 m) by lia.
      rewrite E1. simpl shr.
      assert (EM' : M = 2 * 2 ^ (Zdigits2 m - 1)).
      { rewrite EM. replace (Zdigits2 m) with (Zdigits2 m - 1 + 1) at 1 by lia.
        rewrite Z.pow_add_r, Z.pow_1_r by lia. lia. }
      assert (0 < 2 ^ (Zdigits2 m - 1)) by (apply Z.pow_pos_nonneg; lia).
      destruct (2 ^ (Zdigits2 m - 1)) as [|h|h] eqn:Eh; try lia.
      rewrite EM'. change (2 * Zpos h) with (Zpos h~0).
      exists {| shr_m := Zpos h; shr_r := false; shr_s := false |}, 1.
      split; [reflexivity|]. split; [lia|]. simpl shr_m. split; [lia|].
      assert (Zdigits2 (Zpos h) = Zdigits2 m).
      { apply Z.le_antisymm.
        - apply Zdigits2_upper; [lia|]. rewrite <- Eh.
          split; [lia|]. apply Z.pow_lt_mono_r; lia.
        - pose proof (Zdigits2_lower (Zpos h) (Zdigits2 m - 1) ltac:(lia) ltac:(lia)).
          lia. }
      split; [rewrite fexp64_eq; lia|]. intros _.
      rewrite <- Eh. f_equal. lia.
Qed.

Lemma canonical_fexp64 (m : positive) (e : Z) :
  canonical_mantissa prec emax m e = true <-> fexp64 (Zdigits2 (Zpos m) + e) = e.
Proof. unfold canonical_mantissa, fexp64. simpl Zdigits2. apply Z.eqb_eq. Qed.

Lemma bounded_inv (m : positive) (e : Z) :
  bounded prec emax m e = true ->
  -1074 <= e <= 971 /\ Zpos m < 2 ^ 53.
Proof.
  unfold bounded. intros H. apply andb_prop in H as [C B].
  apply canonical_fexp64 in C. apply Z.leb_le in B.
  rewrite fexp64_eq in C. unfold emax, prec in B.
  split; [lia|].
  apply Z.lt_le_trans with (2 ^ Zdigits2 (Zpos m)); [apply Zdigits2_gt; lia|].
  apply Z.pow_le_mono_r; lia.
Qed.

(** No binary64 number lies strictly between a mantissa at its canonical
    exponent and the next one. *)
Lemma representable_gap (m' e' g : Z) :
  0 <= m' -> -1074 <= e' -> fexp64 (Zdigits2 m' + e') = e' ->
  representable g ->
  g <= m' * 2 ^ (e' + 1074) \/ (m' + 1) * 2 ^ (e' + 1074) <= g.
Proof.
  intros Hm He Hc [->|(mg & eg & Hb & ->)].
  - left. apply Z.mul_nonneg_nonneg; [lia|apply Z.pow_nonneg; lia].
  - destruct (bounded_inv mg eg Hb) as [Heg Hmg]. unfold units.
    assert (W : 0 < 2 ^ (e' + 1074)) by (apply Z.pow_pos_nonneg; lia).
    destruct (Z_le_gt_dec e' eg) as [L|G].
    + replace (eg + 1074) with ((eg - e') + (e' + 1074)) by lia.
      rewrite Z.pow_add_r, Z.mul_assoc by lia.
      destruct (Z_le_gt_dec (Zpos mg * 2 ^ (eg - e')) m') as [J|J].
      * left. apply Z.mul_le_mono_nonneg_r; lia.
      * right. apply Z.mul_le_mono_nonneg_r; lia.
    + left. rewrite fexp64_eq in Hc.
      assert (Hd : Zdigits2 m' = 53) by lia.
      assert (Hm0 : 0 < m').
      { destruct (Z.eq_dec m' 0) as [->|]; [discriminate Hd|lia]. }
      pose proof (Zdigits2_le_double m' Hm0) as Hle. rewrite Hd in Hle.
      replace (e' + 1074) with ((e' - eg - 1) + 1 + (eg + 1074)) by lia.
      rewrite (Z.pow_add_r 2 (e' - eg - 1 + 1) (eg + 1074)),
        (Z.pow_add_r 2 (e' - eg - 1) 1), Z.pow_1_r by lia.
      assert (A : 0 < 2 ^ (eg + 1074)) by (apply Z.pow_pos_nonneg; lia).
      assert (B : 0 < 2 ^ (e' - eg - 1)) by (apply Z.pow_pos_nonneg; lia).
      apply Z.le_trans with (2 ^ 53 * 2 ^ (eg + 1074)).
      * apply Z.mul_le_mono_nonneg_r; lia.
      * rewrite Z.mul_assoc. apply Z.mul_le_mono_nonneg_r; [lia|].
        apply Z.le_trans with (m' * 2); [lia|].
        rewrite Z.mul_assoc. apply Z.mul_le_mono_nonneg_r; [lia|].
        assert (m' * 1 <= m' * 2 ^ (e' - eg - 1))
          by (apply Z.mul_le_mono_nonneg_l; lia).
        lia.
Qed.

(** The arithmetic of rounding to nearest: [y] is the chosen end of the
    interval [[a, b]] around [x], and [z] is outside of the interval. *)
Lemma nearest_end (a b x y z : Z) :
  a <= x <= b ->
  (y = a /\ 2 * x <= a + b) \/ (y = b /\ a + b <= 2 * x) ->
  z <= a \/ b <= z ->
  Z.abs (y - x) <= Z.abs (z - x)
  /\ (z <> y -> Z.abs (z - x) = Z.abs (y - x) -> 2 * x = a + b).
Proof. lia. Qed.

Lemma nearest_core (N D P Q m' M g : Z) :
  0 < D -> 0 < P -> 0 < Q ->
  m' * (D * Q) <= N <= (m' + 1) * (D * Q) ->
  (M = m' /\ 2 * N <= (2 * m' + 1) * (D * Q))
  \/ (M = m' + 1 /\ (2 * m' + 1) * (D * Q) <= 2 * N) ->
  g <= m' * (P * Q) \/ (m' + 1) * (P * Q) <= g ->
  Z.abs (D * (M * (P * Q)) - N * P) <= Z.abs (D * g - N * P)
  /\ (g <> M * (P * Q) ->
      Z.abs (D * g - N * P) = Z.abs (D * (M * (P * Q)) - N * P) ->
      2 * N = (2 * m' + 1) * (D * Q)).
Proof.
  intros HD HP HQ HN HM Hg.
  assert (Ha : D * (m' * (P * Q)) = m' * (D * Q) * P) by ring.
  assert (Hb : D * ((m' + 1) * (P * Q)) = (m' + 1) * (D * Q) * P) by ring.
  assert (Hab : D * (m' * (P * Q)) + D * ((m' + 1) * (P * Q))
                = (2 * m' + 1) * (D * Q) * P) by ring.
  destruct (nearest_end (D * (m' * (P * Q))) (D * ((m' + 1) * (P * Q)))
              (N * P) (D * (M * (P * Q))) (D * g)) as [H1 H2].
  - rewrite Ha, Hb. split; apply Z.mul_le_mono_nonneg_r; lia.
  - rewrite Hab. destruct HM as [[-> H]|[-> H]]; [left|right]; (split; [reflexivity|]).
    + replace (2 * (N * P)) with (2 * N * P) by ring.
      apply Z.mul_le_mono_nonneg_r; lia.
    + replace (2 * (N * P)) with (2 * N * P) by ring.
      apply Z.mul_le_mono_nonneg_r; lia.
  - destruct Hg as [H|H]; [left|right]; apply Z.mul_le_mono_nonneg_l; lia.
  - split; [exact H1|]. intros Hne Heq.
    assert (E : 2 * (N * P) = (2 * m' + 1) * (D * Q) * P).
    { rewrite <- Hab. apply H2; [|exact Heq].
      intros C. apply Hne. apply Z.mul_reg_l in C; lia. }
    replace (2 * (N * P)) with (2 * N * P) in E by ring.
    apply Z.mul_reg_r in E; lia.
Qed.

(** [binary_round_aux] on a quotient [N / D] at the exponent [ex] that lies at
    [mx] with the location [lx]: the result is [N / D * 2^ex] rounded to
    binary64. *)
Lemma binary_round_aux_nearest (s : bool) (N D mx ex : Z) (lx : location) :
  0 < D -> 0 <= mx -> inbetween N D mx lx ->
  -1074 <= ex -> ex <= fexp64 (Zdigits2 mx + ex) ->
  nearest_binary64 s (N * 2 ^ (ex + 1074)) D (binary_round_aux prec emax s mx ex lx).
Proof.
  intros HD Hmx Hin Hex Hn.
  unfold binary_round_aux, shr_fexp at 1. fold (fexp64 (Zdigits2 mx + ex)).
  destruct (shr_shifted N D mx ex (fexp64 (Zdigits2 mx + ex) - ex) lx HD Hmx Hin)
    as (mrs' & E1 & (Hk & Hm' & Hin' & Hd')).
  rewrite E1. clear E1.
  remember (fexp64 (Zdigits2 mx + ex) - ex) as n eqn:En.
  replace (Z.max 0 n) with n in * by lia.
  assert (Hc' : fexp64 (Zdigits2 (shr_m mrs') + (ex + n)) = ex + n).
  { rewrite fexp64_eq in *. lia. }
  assert (HQ : 0 < 2 ^ n) by (apply Z.pow_pos_nonneg; lia).
  assert (HP : 0 < 2 ^ (ex + 1074)) by (apply Z.pow_pos_nonneg; lia).
  assert (HD' : 0 < D * 2 ^ n) by (apply Z.mul_pos_pos; lia).
  destruct (round_nearest_even_spec N (D * 2 ^ n) (shr_m mrs') (loc_of_shr_record mrs')
              HD' Hin') as (HN & HM & Heven).
  remember (round_nearest_even (shr_m mrs') (loc_of_shr_record mrs')) as M eqn:EM.
  remember (shr_m mrs') as m' eqn:Em'.
  destruct (shr_fexp_after_rounding m' M (ex + n) Hm') as
    (mrs'' & k' & E2 & Hk' & HMk & Hc'' & H52);
    [destruct HM as [[? _]|[? _]]; auto|exact Hc'|].
  rewrite E2. clear E2.
  assert (HW : 2 ^ (ex + n + 1074) = 2 ^ (ex + 1074) * 2 ^ n).
  { replace (ex + n + 1074) with (ex + 1074 + n) by lia. apply Z.pow_add_r; lia. }
  assert (Hnear : forall g, representable g ->
            Z.abs (D * (M * 2 ^ (ex + n + 1074)) - N * 2 ^ (ex + 1074))
            <= Z.abs (D * g - N * 2 ^ (ex + 1074))
            /\ (g <> M * 2 ^ (ex + n + 1074) ->
                Z.abs (D * g - N * 2 ^ (ex + 1074))
                = Z.abs (D * (M * 2 ^ (ex + n + 1074)) - N * 2 ^ (ex + 1074)) ->
                Z.even M = true)).
  { intros g Hg.
    pose proof (representable_gap m' (ex + n) g Hm' ltac:(lia) Hc' Hg) as Hgap.
    rewrite HW in *.
    destruct (nearest_core N D (2 ^ (ex + 1074)) (2 ^ n) m' M g HD HP HQ HN HM Hgap)
      as [H1 H2].
    split; [exact H1|]. intros Hne Heq. apply Heven, H2; assumption. }
  assert (Hu : forall p, shr_m mrs'' = Zpos p ->
                         units p (ex + n + k') = M * 2 ^ (ex + n + 1074)).
  { intros p Ep. unfold units. rewrite <- HMk, Ep.
    replace (ex + n + k' + 1074) with (k' + (ex + n + 1074)) by lia.
    rewrite Z.pow_add_r by lia. ring. }
  destruct (shr_m mrs'') as [|p|p] eqn:Em''.
  - split; [reflexivity|]. intros g Hg.
    assert (HM0 : M = 0) by lia.
    destruct (Hnear g Hg) as [H1 _]. rewrite HM0 in H1. exact H1.
  - destruct (Z.leb_spec (ex + n + k') (emax - prec)) as [Hle|Hgt].
    + split; [reflexivity|]. split.
      { unfold bounded. apply andb_true_intro. split.
        - apply canonical_fexp64. exact Hc''.
        - apply Z.leb_le. exact Hle. }
      rewrite (Hu p eq_refl). split; [|split].
      * intros g Hg. apply (Hnear g Hg).
      * intros (g & Hg & Hne & Heq).
        destruct (Hnear g Hg) as [_ H2]. specialize (H2 Hne Heq).
        assert (Hk01 : k' = 0 \/ k' = 1) by lia.
        destruct Hk01 as [->| ->].
        -- rewrite Z.pow_0_r, Z.mul_1_r in HMk. rewrite HMk. exact H2.
        -- rewrite (H52 eq_refl). reflexivity.
      * (* below the point from which the result is the infinity *)
        unfold emax, prec in Hle. rewrite fexp64_eq in Hc', Hc''.
        pose proof (Zdigits2_gt m' Hm') as Hm3.
        assert (Hm53 : m' + 1 <= 2 ^ 53).
        { assert (2 ^ Zdigits2 m' <= 2 ^ 53) by (apply Z.pow_le_mono_r; lia). lia. }
        replace (2 * (N * 2 ^ (ex + 1074))) with (2 * N * 2 ^ (ex + 1074)) by ring.
        destruct (Z_le_gt_dec (ex + n) 970) as [Hlow|Hhigh].
        -- apply Z.le_lt_trans with (2 * ((m' + 1) * (D * 2 ^ n)) * 2 ^ (ex + 1074)).
           { apply Z.mul_le_mono_nonneg_r; lia. }
           replace (2 * ((m' + 1) * (D * 2 ^ n)) * 2 ^ (ex + 1074))
             with (D * (2 * (m' + 1)) * 2 ^ (ex + n + 1074)) by (rewrite HW; ring).
           apply Z.le_lt_trans with (D * 2 ^ 54 * 2 ^ 2044).
           { apply Z.mul_le_mono_nonneg.
             - apply Z.mul_nonneg_nonneg; lia.
             - apply Z.mul_le_mono_nonneg_l; [lia|].
               replace (2 ^ 54) with (2 * 2 ^ 53) by reflexivity. lia.
             - apply Z.pow_nonneg; lia.
             - apply Z.pow_le_mono_r; lia. }
           replace (D * (2 ^ 54 - 1) * 2 ^ 2045)
             with (D * ((2 ^ 54 - 1) * 2) * 2 ^ 2044)
             by (replace (2 ^ 2045) with (2 * 2 ^ 2044) by reflexivity; ring).
           apply Z.mul_lt_mono_pos_r; [reflexivity|].
           apply Z.mul_lt_mono_pos_l; [exact HD|reflexivity].
        -- assert (k' = 0) by lia. subst k'.
           rewrite Z.pow_0_r, Z.mul_1_r in HMk.
           assert (Hdp : Zdigits2 (Zpos p) = 53) by lia.
           pose proof (Zdigits2_gt (Zpos p) ltac:(lia)) as Hp3. rewrite Hdp in Hp3.
           replace (D * (2 ^ 54 - 1) * 2 ^ 2045)
             with ((2 ^ 54 - 1) * (D * 2 ^ n) * 2 ^ (ex + 1074))
             by (replace 2045 with (ex + n + 1074) by lia; rewrite HW; ring).
           apply Z.mul_lt_mono_pos_r; [exact HP|].
           destruct (Z_lt_ge_dec (2 * N) ((2 ^ 54 - 1) * (D * 2 ^ n))) as [Hlt|Hge];
             [exact Hlt|exfalso].
           destruct (Z.eq_dec m' (2 ^ 53 - 1)) as [E53|N53].
           ++ assert (E54 : 2 * m' + 1 = 2 ^ 54 - 1).
              { rewrite E53. reflexivity. }
              rewrite E54 in HM, Heven.
              destruct HM as [[EM' Hup]|[EM' _]].
              ** assert (Ev : Z.even M = true) by (apply Heven; lia).
                 rewrite EM', E53 in Ev. discriminate Ev.
              ** rewrite E53 in EM'. change (2 ^ 53 - 1 + 1) with (2 ^ 53) in EM'. lia.
           ++ assert (m' * (D * 2 ^ n) <= (2 ^ 53 - 2) * (D * 2 ^ n))
                by (apply Z.mul_le_mono_nonneg_r; lia).
              lia.
    + split; [reflexivity|].
      unfold emax, prec in Hgt. rewrite fexp64_eq in Hc', Hc''.
      assert (Hdp : Zdigits2 (Zpos p) = 53) by lia.
      pose proof (Zdigits2_le_double (Zpos p) ltac:(lia)) as Hp. rewrite Hdp in Hp.
      assert (Hdm : Zdigits2 m' = 53) by lia.
      assert (Hm0 : 0 < m').
      { destruct (Z.eq_dec m' 0) as [->|]; [discriminate Hdm|lia]. }
      pose proof (Zdigits2_le_double m' Hm0) as Hm2. rewrite Hdm in Hm2.
      pose proof (Zdigits2_gt m' Hm') as Hm3. rewrite Hdm in Hm3.
      destruct (Z_le_gt_dec 972 (ex + n)) as [Hbig|Hsmall].
      * (* the lower end of the interval is already too large *)
        apply Z.le_trans with (2 * (D * (m' * 2 ^ (ex + n + 1074)))).
        -- replace (ex + n + 1074) with ((ex + n - 972) + 2046) by lia.
           rewrite Z.pow_add_r by lia.
           assert (0 < 2 ^ (ex + n - 972)) by (apply Z.pow_pos_nonneg; lia).
           replace (2 ^ 2046) with (2 * 2 ^ 2045) by reflexivity.
           assert (X : D * (2 ^ 54 - 1) * 2 ^ 2045
                       <= D * (2 * m' * 2) * 2 ^ 2045).
           { apply Z.mul_le_mono_nonneg_r; [apply Z.pow_nonneg; lia|].
             apply Z.mul_le_mono_nonneg_l; lia. }
           apply Z.le_trans with (1 := X).
           replace (2 * (D * (m' * (2 ^ (ex + n - 972) * (2 * 2 ^ 2045)))))
             with (D * (2 * m' * 2) * 2 ^ 2045 * 2 ^ (ex + n - 972)) by ring.
           assert (0 <= D * (2 * m' * 2) * 2 ^ 2045).
           { apply Z.mul_nonneg_nonneg; [|apply Z.pow_nonneg; lia].
             apply Z.mul_nonneg_nonneg; lia. }
           assert (D * (2 * m' * 2) * 2 ^ 2045 * 1
                   <= D * (2 * m' * 2) * 2 ^ 2045 * 2 ^ (ex + n - 972))
             by (apply Z.mul_le_mono_nonneg_l; lia).
           lia.
        -- rewrite HW.
           replace (2 * (D * (m' * (2 ^ (ex + 1074) * 2 ^ n))))
             with (2 * (m' * (D * 2 ^ n)) * 2 ^ (ex + 1074)) by ring.
           replace (2 * (N * 2 ^ (ex + 1074))) with (2 * N * 2 ^ (ex + 1074)) by ring.
           apply Z.mul_le_mono_nonneg_r; lia.
      * (* the mantissa was rounded up to 2^53 at the exponent 971 *)
        assert (k' = 1) by lia. subst k'.
        assert (ex + n = 971) by lia.
        specialize (H52 eq_refl).
        assert (HM53 : M = 2 ^ 53).
        { rewrite <- HMk, H52. reflexivity. }
        assert (Hup : (2 * m' + 1) * (D * 2 ^ n) <= 2 * N).
        { destruct HM as [[E _]|[_ H']]; [|exact H']. lia. }
        assert (Em53 : 2 * m' + 1 = 2 ^ 54 - 1).
        { destruct HM as [[E _]|[E _]]; [lia|].
          replace (2 ^ 54) with (2 * 2 ^ 53) by reflexivity. lia. }
        rewrite Em53 in Hup.
        replace (2 * (N * 2 ^ (ex + 1074))) with (2 * N * 2 ^ (ex + 1074)) by ring.
        replace (D * (2 ^ 54 - 1) * 2 ^ 2045)
          with ((2 ^ 54 - 1) * (D * 2 ^ n) * 2 ^ (ex + 1074)).
        -- apply Z.mul_le_mono_nonneg_r; lia.
        -- replace 2045 with (ex + n + 1074) by lia. rewrite HW. ring.
  - exfalso.
    assert (0 <= M) by (destruct HM as [[-> _]|[-> _]]; lia).
    assert (Zneg p * 2 ^ k' < 0); [|lia].
    apply Z.mul_neg_pos; [lia|apply Z.pow_pos_nonneg; lia].
Qed.

(** The division by [100]: quotient, exponent and location. *)
Lemma new_location_100 (N : Z) :
  0 <= N ->
  inbetween N 100 (N / 100) (new_location 100 (N mod 100)).
Proof.
  intros HN.
  pose proof (Z.div_mod N 100 ltac:(lia)) as E.
  pose proof (Z.mod_pos_bound N 100 ltac:(lia)) as B.
  change (new_location 100 (N mod 100)) with (new_location_even 100 (N mod 100)).
  unfold new_location_even.
  destruct (Z.eqb_spec (N mod 100) 0) as [Z0|Z0]; [simpl; lia|].
  destruct (Z.compare_spec (2 * (N mod 100)) 100); simpl; lia.
Qed.

Lemma SFdiv_core_binary_100 (q : positive) :
  exists mz ez lz,
    SFdiv_core_binary prec emax (Zpos q) 0 100 0 = (mz, ez, lz)
    /\ -1074 <= ez <= 0
    /\ 0 <= mz
    /\ inbetween (Zpos q * 2 ^ (- ez)) 100 mz lz
    /\ ez <= fexp64 (Zdigits2 mz + ez).
Proof.
  unfold SFdiv_core_binary.
  change (Zdigits2 100 + 0) with 7. change (0 - 0) with 0.
  rewrite Z.add_0_r. fold (fexp64 (Zdigits2 (Zpos q) - 7)).
  remember (Z.min (fexp64 (Zdigits2 (Zpos q) - 7)) 0) as ez eqn:Eez.
  assert (Hez : -1074 <= ez <= 0) by (rewrite fexp64_eq in Eez; lia).
  assert (Em : match 0 - ez with
               | Zpos _ => Z.shiftl (Zpos q) (0 - ez)
               | Z0 => Zpos q
               | Zneg _ => 0
               end = Zpos q * 2 ^ (- ez)).
  { replace (0 - ez) with (- ez) by lia.
    destruct (- ez) as [|p|p] eqn:E; [lia| |lia].
    apply Z.shiftl_mul_pow2. lia. }
  rewrite Em. clear Em.
  assert (HP : 0 < 2 ^ (- ez)) by (apply Z.pow_pos_nonneg; lia).
  remember (Zpos q * 2 ^ (- ez)) as N eqn:EN.
  assert (HN : 0 < N) by (subst N; apply Z.mul_pos_pos; lia).
  pose proof (new_location_100 N ltac:(lia)) as Hloc.
  unfold Z.div, Z.modulo in Hloc.
  assert (Hq : 0 <= N / 100) by (apply Z.div_pos; lia).
  assert (Hd : Zdigits2 (Zpos q) - 7 <= Zdigits2 (N / 100) + ez).
  { pose proof (Zdigits2_nonneg (N / 100)).
    destruct (Z_le_gt_dec (Zdigits2 (Zpos q) - ez - 7) 0) as [L|G]; [lia|].
    assert (2 ^ (Zdigits2 (Zpos q) - ez - 7 - 1) <= N / 100); [|
      pose proof (Zdigits2_lower (N / 100) (Zdigits2 (Zpos q) - ez - 7 - 1)
                    ltac:(lia) ltac:(assumption)); lia].
    apply Z.div_le_lower_bound; [lia|].
    pose proof (Zdigits2_le_double (Zpos q) ltac:(lia)) as Hq2.
    pose proof (Zdigits2_nonneg (Zpos q)).
    assert (0 < Zdigits2 (Zpos q)) by (simpl; lia).
    assert (E2 : 2 ^ Zdigits2 (Zpos q) = 2 * 2 ^ (Zdigits2 (Zpos q) - 1)).
    { replace (Zdigits2 (Zpos q)) with (1 + (Zdigits2 (Zpos q) - 1)) at 1 by lia.
      rewrite Z.pow_add_r by lia. reflexivity. }
    assert (E3 : 2 ^ (Zdigits2 (Zpos q) - 1) * 2 ^ (- ez)
                 = 128 * 2 ^ (Zdigits2 (Zpos q) - ez - 7 - 1)).
    { rewrite <- Z.pow_add_r by lia. change 128 with (2 ^ 7).
      rewrite <- Z.pow_add_r by lia. f_equal. lia. }
    assert (2 ^ (Zdigits2 (Zpos q) - 1) * 2 ^ (- ez) <= N).
    { subst N. apply Z.mul_le_mono_nonneg_r; lia. }
    assert (0 < 2 ^ (Zdigits2 (Zpos q) - ez - 7 - 1)) by (apply Z.pow_pos_nonneg; lia).
    lia. }
  unfold Z.div in Hq, Hd.
  destruct (Z.div_eucl N 100) as [mz r] eqn:Ediv.
  exists mz, ez, (new_location 100 r).
  split; [reflexivity|]. split; [exact Hez|]. split; [exact Hq|].
  split; [rewrite <- EN; exact Hloc|].
  rewrite fexp64_eq in *. simpl fst in *. lia.
Qed.

(** [round_half_even n d] is the integer nearest to [n / d], the even one in
    a tie. *)
Lemma round_half_even_spec (n d : Z) :
  0 <= n -> 0 < d ->
  0 <= round_half_even n d
  /\ 2 * Z.abs (round_half_even n d * d - n) <= d
  /\ (2 * Z.abs (round_half_even n d * d - n) = d ->
      Z.even (round_half_even n d) = true).
Proof.
  intros Hn Hd. unfold round_half_even.
  pose proof (Z.div_mod n d ltac:(lia)) as E.
  pose proof (Z.mod_pos_bound n d Hd) as B.
  assert (Q : 0 <= n / d) by (apply Z.div_pos; lia).
  remember (n / d) as a. remember (n mod d) as r.
  assert (Ea : forall k, (a + k) * d = d * a + k * d) by (intros; ring).
  destruct (Z.compare_spec (2 * r) d) as [C|C|C].
  - destruct (Z.even a) eqn:Ev.
    + split; [lia|]. split; [|intros _; exact Ev].
      replace (a * d) with (d * a) by ring. lia.
    + split; [lia|]. rewrite (Ea 1). split; [lia|]. intros _.
      replace (a + 1) with (Z.succ a) by lia.
      rewrite Z.even_succ, <- Z.negb_even, Ev. reflexivity.
  - replace (a * d) with (d * a) by ring. split; [lia|]. split; lia.
  - rewrite (Ea 1). split; [lia|]. split; lia.
Qed.

(** [float_round v 2] is [v] rounded to 2 decimal places. *)
Lemma float_round_2_places (v : float) :
  rounded_to_2_places v (float_round v 2).
Proof.
  destruct v as [s|s| |s m e]; try reflexivity.
  unfold rounded_to_2_places, float_round.
  change (10 ^ Z.of_nat 2) with 100.
  set (q := match e with
            | Zneg p => round_half_even (Zpos m * 100) (2 ^ Zpos p)
            | _ => Zpos m * 100 * 2 ^ e
            end).
  assert (Hq : 0 <= q /\ nearest_integer q (Zpos m * 100) e).
  { subst q. destruct e as [|p|p]; simpl nearest_integer.
    - split; [lia|reflexivity].
    - split; [|reflexivity].
      apply Z.mul_nonneg_nonneg; [lia|apply Z.pow_nonneg; lia].
    - assert (0 < 2 ^ Zpos p) by (apply Z.pow_pos_nonneg; lia).
      destruct (round_half_even_spec (Zpos m * 100) (2 ^ Zpos p)) as (A & B & C);
        [lia|lia|].
      split; [exact A|]. split; [exact B|exact C]. }
  destruct Hq as [Hq0 Hq]. exists q. split; [exact Hq|]. clearbody q.
  destruct q as [|pq|pq]; [| |lia].
  - split; [reflexivity|]. intros g _. simpl. lia.
  - destruct (SFdiv_core_binary_100 pq) as (mz & ez & lz & E & Hez & Hmz & Hin & Hn).
    rewrite E.
    replace (Zpos pq * 2 ^ 1074) with (Zpos pq * 2 ^ (- ez) * 2 ^ (ez + 1074)).
    + apply binary_round_aux_nearest; try assumption; lia.
    + rewrite <- Z.mul_assoc, <- Z.pow_add_r by lia. do 2 f_equal. lia.
Qed.

(** The decimal of a binary64 number is never out of the range of binary64. *)
Lemma float_round_finite (v : float) :
  valid_binary prec emax v = true -> float_is_finite v = true ->
  float_is_finite (float_round v 2) = true.
Proof.
  destruct v as [s|s| |s m e]; try (intros _ H; exact H).
  intros Hb _. simpl in Hb.
  pose proof (float_round_2_places (S754_finite s m e)) as (q & Hq & Hn).
  destruct (float_round (S754_finite s m e) 2) as [s'|s'| |s' m' e'];
    [reflexivity| |destruct Hn|reflexivity].
  exfalso. destruct Hn as [_ Hn].
  destruct (bounded_inv m e Hb) as [He Hm].
  replace (2 ^ 2045) with (2 ^ 971 * 2 ^ 1074) in Hn by reflexivity.
  replace (2 * (q * 2 ^ 1074)) with (2 * q * 2 ^ 1074) in Hn by ring.
  rewrite Z.mul_assoc in Hn.
  apply Z.mul_le_mono_pos_r in Hn; [|reflexivity].
  assert (P971 : 0 < 2 ^ 971) by reflexivity.
  assert (Hq2 : 2 * q <= 100 * (2 ^ 54 - 2) * 2 ^ 971).
  { destruct e as [|p|p]; simpl in Hq.
    - subst q. rewrite Z.mul_1_r.
      replace (2 * (Zpos m * 100)) with (100 * (2 * Zpos m) * 1) by ring.
      apply Z.mul_le_mono_nonneg; lia.
    - subst q.
      replace (2 * (Zpos m * 100 * 2 ^ Zpos p))
        with (100 * (2 * Zpos m) * 2 ^ Zpos p) by ring.
      apply Z.mul_le_mono_nonneg; [lia|lia|apply Z.pow_nonneg; lia|].
      apply Z.pow_le_mono_r; lia.
    - destruct Hq as [Hq _].
      assert (P : 0 < 2 ^ Zpos p) by (apply Z.pow_pos_nonneg; lia).
      assert (q <= Zpos m * 100 + 1).
      { apply Z.mul_le_mono_pos_r with (p := 2 ^ Zpos p); [exact P|].
        rewrite Z.mul_add_distr_r.
        assert (Zpos m * 100 * 1 <= Zpos m * 100 * 2 ^ Zpos p)
          by (apply Z.mul_le_mono_nonneg_l; lia).
        lia. }
      apply Z.le_trans with (100 * (2 ^ 54 - 2) * 1); [lia|].
      apply Z.mul_le_mono_nonneg_l; lia. }
  assert (100 * (2 ^ 54 - 2) * 2 ^ 971 < 100 * (2 ^ 54 - 1) * 2 ^ 971); [|lia].
  apply Z.mul_lt_mono_pos_r; [exact P971|lia].
Qed.

(** The value kept is not the input in general: the binary64 number written
    70.005 lies just below that decimal; it is not itself rounded to 2 decimal
    places, and [round] gives 70.0. *)
Example rounded_to_2_places_not_identity :
  ~ rounded_to_2_places (b64 0x118051eb851eb8 6) (b64 0x118051eb851eb8 6)
  /\ float_round (b64 0x118051eb851eb8 6) 2 = b64 0x11800000000000 6.
Proof.
  split; [|reflexivity].
  intros (q & [Hq _] & _ & _ & Hn & _).
  assert (Eq : q = 7000).
  { change (2 ^ Z.pos 46) with 70368744177664 in Hq.
    change (Zpos 0x118051eb851eb8 * 100) with 492616393615736800 in Hq. lia. }
  subst q.
  assert (Hg : representable (units 0x11800000000000 (6 - 52))).
  { right. exists 0x11800000000000%positive, (6 - 52). split; reflexivity. }
  specialize (Hn _ Hg). vm_compute in Hn. apply Hn. reflexivity.
Qed.

(** C5.  A weight or a glucose level that is [<= 0] is refused with the
    [ValueError] of its field; one that is [> 0] is accepted, and the value
    kept is the input rounded to 2 decimal places: it is [round(v, 2)], which
    for a finite [v] is the binary64 number nearest to the decimal [q / 100],
    where [q] is the integer nearest to [100 * v] (a tie goes to the even one
    both times), and which is finite whenever [v] is a finite binary64 number;
    the infinity is kept as it is. *)
Theorem positive_numbers_rounded (w g : float) :
  (float_le w float_zero = true -> validate_weight w = ValueError MSG_WEIGHT)
  /\ (float_lt float_zero w = true ->
      exists kept,
        validate_weight w = Valid kept
        /\ kept = float_round w 2
        /\ rounded_to_2_places w kept
        /\ (valid_binary prec emax w = true -> float_is_finite w = true ->
            float_is_finite kept = true))
  /\ (float_le g float_zero = true -> validate_glucose g = ValueError MSG_GLUCOSE)
  /\ (float_lt float_zero g = true ->
      exists kept,
        validate_glucose g = Valid kept
        /\ kept = float_round g 2
        /\ rounded_to_2_places g kept
        /\ (valid_binary prec emax g = true -> float_is_finite g = true ->
            float_is_finite kept = true)).
Proof.
  unfold validate_weight, validate_glucose.
  split; [|split; [|split]]; intros H.
  - rewrite H. reflexivity.
  - rewrite (float_lt_zero_not_le w H). exists (float_round w 2).
    split; [reflexivity|]. split; [reflexivity|].
    split; [apply float_round_2_places|apply float_round_finite].
  - rewrite H. reflexivity.
  - rewrite (float_lt_zero_not_le g H). exists (float_round g 2).
    split; [reflexivity|]. split; [reflexivity|].
    split; [apply float_round_2_places|apply float_round_finite].
Qed.

Example weight_70_005 :
  validate_weight (b64 0x118051eb851eb8 6) = Valid (b64 0x11800000000000 6).
Proof. vm_compute. reflexivity. Qed.

Example weight_not_positive :
  map validate_weight [S754_zero false; S754_zero true; S754_infinity true;
                       S754_finite true 1 (-1074)]
  = [ValueError MSG_WEIGHT; ValueError MSG_WEIGHT; ValueError MSG_WEIGHT;
     ValueError MSG_WEIGHT].
Proof. reflexivity. Qed.

(** ** The resolver of the current user *)

Section ResolverFacts.
Context {UD : UnicodeData} {TC : TokenCodec}.


Lemma query_user_first_Some (db : Session) (user_id : option Z) (user : User.t) :
  query_user_first db user_id = Some user ->
  In user (users db) /\ user_id = Some (User.id user).
Proof.
  unfold query_user_first. destruct user_id as [i|]; [|discriminate].
  intros H. apply find_some in H as [Hin Heq]. apply Z.eqb_eq in Heq.
  split; [assumption|congruence].
Qed.

Lemma query_user_first_None (db : Session) (user_id : option Z) :
  query_user_first db user_id = None <->
  forall user, In user (users db) -> user_id <> Some (User.id user).
Proof.
  unfold query_user_first. destruct user_id as [i|].
  - split.
    + intros H user Hin E. injection E as ->.
      pose proof (find_none _ _ H user Hin) as Hn. simpl in Hn.
      rewrite Z.eqb_refl in Hn. discriminate Hn.
    + intros H. destruct (find _ (users db)) as [user|] eqn:E; [|reflexivity].
      apply find_some in E as [Hin Heq]. apply Z.eqb_eq in Heq.
      destruct (H user Hin). congruence.
  - split; [discriminate|reflexivity].
Qed.

(** With ids that identify the rows, one row at most has a given id. *)
Lemma users_id_unique (db : Session) (u u' : User.t) :
  List.NoDup (map User.id (users db)) ->
  In u (users db) -> In u' (users db) -> User.id u = User.id u' -> u = u'.
Proof.
  induction (users db) as [|x l IH]; simpl; [tauto|].
  intros Hnd [->|Hu] [->|Hu'] E; inversion Hnd as [|? ? Hx Hl]; subst.
  - reflexivity.
  - destruct Hx. rewrite E. apply in_map. assumption.
  - destruct Hx. rewrite <- E. apply in_map. assumption.
  - apply IH; assumption.
Qed.

Lemma str_lower_Bearer : str_lower (lit "Bearer") = lit "bearer".
Proof. reflexivity. Qed.

(** The resolver reads the database and never writes it. *)
Lemma get_current_user_readonly (authorization : option pystr) (db : Session) :
  snd (get_current_user authorization db) = db.
Proof.
  unfold get_current_user.
  destruct authorization as [[|c a]|]; try reflexivity.
  destruct (str_split_whitespace (c :: a)) as [|scheme [|token [|? ?]]]; try reflexivity.
  destruct (negb _); [reflexivity|].
  destruct (decode_access_token token) as [payload|]; [|reflexivity].
  destruct (bool_decide _); [reflexivity|].
  unfold bind, query. destruct (query_user_first db _); reflexivity.
Qed.

(** C6, as amended.  Without an [Authorization] header, or with an empty
    one, the resolver fails with 401 "Token missing"; with a header that is
    not empty and does not split at whitespace into exactly two parts of
    which the first is "Bearer" in any case, it fails with 401 "Invalid
    authorization header". *)
Theorem authorization_header_shape (authorization : option pystr) (db : Session) :
  (authorization = None \/ authorization = Some [] ->
   get_current_user authorization db = (Raised (unauthorized "Token missing"), db))
  /\ (forall a, authorization = Some a -> a <> [] ->
      (forall scheme token, str_split_whitespace a = [scheme; token] ->
                            str_lower scheme <> str_lower (lit "Bearer")) ->
      get_current_user authorization db
      = (Raised (unauthorized "Invalid authorization header"), db)).
Proof.
  split.
  - intros [->| ->]; reflexivity.
  - intros a -> Hne Hshape. unfold get_current_user.
    destruct a as [|c a]; [congruence|].
    destruct (str_split_whitespace (c :: a)) as [|scheme [|token [|? ?]]] eqn:E;
      try reflexivity.
    specialize (Hshape scheme token eq_refl). rewrite str_lower_Bearer in Hshape.
    rewrite bool_decide_eq_false_2 by assumption. reflexivity.
Qed.

Lemma split_two_not_empty (a scheme token : pystr) :
  str_split_whitespace a = [scheme; token] -> a <> [].
Proof. intros H ->. discriminate H. Qed.

(** C7, as amended.  For a header of the form "Bearer <token>": when the
    codec refuses the token, or gives an empty set of claims, the resolver
    fails with 401 "Invalid or expired token"; when it gives claims that are
    not empty and no user has the subject as id (or there is no subject), the
    resolver fails with 401 "User not found"; otherwise it returns a user of
    the database whose id is the subject, the only one when ids identify
    the rows.  The database is left as it was in every case. *)
Theorem token_resolution (a scheme token : pystr) (db : Session) :
  str_split_whitespace a = [scheme; token] ->
  str_lower scheme = str_lower (lit "Bearer") ->
  (decode_access_token token = None \/ decode_access_token token = Some ∅ ->
   get_current_user (Some a) db
   = (Raised (unauthorized "Invalid or expired token"), db))
  /\ (forall payload : gmap string Z,
      decode_access_token token = Some payload -> payload <> ∅ ->
      (forall user, In user (users db) -> payload !! "sub"%string <> Some (User.id user)) ->
      get_current_user (Some a) db = (Raised (unauthorized "User not found"), db))
  /\ (forall (payload : gmap string Z) user,
      decode_access_token token = Some payload -> payload <> ∅ ->
      In user (users db) -> payload !! "sub"%string = Some (User.id user) ->
      exists found,
        get_current_user (Some a) db = (Returned found, db)
        /\ In found (users db)
        /\ payload !! "sub"%string = Some (User.id found)
        /\ (List.NoDup (map User.id (users db)) -> found = user)).
Proof.
  intros Hsplit Hlower. rewrite str_lower_Bearer in Hlower.
  pose proof (split_two_not_empty _ _ _ Hsplit) as Hne.
  assert (Hstep : get_current_user (Some a) db =
    match decode_access_token token with
    | None => (Raised (unauthorized "Invalid or expired token"), db)
    | Some payload =>
        if bool_decide (payload = ∅)
        then (Raised (unauthorized "Invalid or expired token"), db)
        else match query_user_first db (payload !! "sub"%string) with
             | None => (Raised (unauthorized "User not found"), db)
             | Some user => (Returned user, db)
             end
    end).
  { unfold get_current_user. destruct a as [|c a]; [congruence|].
    rewrite Hsplit, (bool_decide_eq_true_2 _ Hlower).
    change (negb true) with false. cbv iota.
    destruct (decode_access_token token) as [payload|]; [|reflexivity].
    destruct (bool_decide (payload = ∅)); [reflexivity|].
    unfold bind, query. destruct (query_user_first db _); reflexivity. }
  rewrite Hstep. split; [|split].
  - intros [->| ->]; reflexivity.
  - intros payload -> Hp Hnone. rewrite (bool_decide_eq_false_2 _ Hp).
    rewrite (proj2 (query_user_first_None db _) Hnone). reflexivity.
  - intros payload user -> Hp Hin Hsub. rewrite (bool_decide_eq_false_2 _ Hp).
    destruct (query_user_first db (payload !! "sub"%string)) as [found|] eqn:Q.
    + apply query_user_first_Some in Q as [Hf Hs]. exists found.
      repeat split; try assumption.
      intros Hnd. apply (users_id_unique db); try assumption. congruence.
    + destruct (proj1 (query_user_first_None db _) Q user Hin Hsub).
Qed.
End ResolverFacts.

Lemma singleton_claims_not_empty (k : string) (x : Z) :
  ({[ k := x ]} : gmap string Z) <> ∅.
Proof. apply map_non_empty_singleton. Qed.

(** C7 on the header "Bearer good" and the example database: the user 7. *)
Lemma token_resolution_witness :
  exists found,
    @get_current_user ascii_unicode_data example_codec
      (Some (lit "Bearer good")) example_session
    = (Returned found, example_session)
    /\ In found (users example_session)
    /\ ({[ "sub"%string := 7 ]} : gmap string Z) !! "sub"%string = Some (User.id found)
    /\ (List.NoDup (map User.id (users example_session)) -> found = ann).
Proof.
  apply (proj2 (proj2 (@token_resolution ascii_unicode_data example_codec
           (lit "Bearer good") (lit "Bearer") (lit "good") example_session
           eq_refl eq_refl)) {[ "sub"%string := 7 ]} ann).
  - reflexivity.
  - apply singleton_claims_not_empty.
  - simpl. auto.
  - reflexivity.
Defined.

Example resolver_runs :
  @get_current_user ascii_unicode_data example_codec
    (Some (lit "bearer   good")) example_session = (Returned ann, example_session)
  /\ @get_current_user ascii_unicode_data example_codec
       (Some (lit "Bearer ghost")) example_session
     = (Raised (unauthorized "User not found"), example_session)
  /\ @get_current_user ascii_unicode_data example_codec
       (Some (lit "Bearer nosub")) example_session
     = (Raised (unauthorized "User not found"), example_session)
  /\ @get_current_user ascii_unicode_data example_codec
       (Some (lit "Bearer forged")) example_session
     = (Raised (unauthorized "Invalid or expired token"), example_session)
  /\ @get_current_user ascii_unicode_data example_codec
       (Some (lit "Bearer")) example_session
     = (Raised (unauthorized "Invalid authorization header"), example_session)
  /\ @get_current_user ascii_unicode_data example_codec
       (Some (lit "Token good")) example_session
     = (Raised (unauthorized "Invalid authorization header"), example_session)
  /\ @get_current_user ascii_unicode_data example_codec None example_session
     = (Raised (unauthorized "Token missing"), example_session).
Proof. vm_compute. repeat split. Qed.

(** C6 as the specification words it fails on the empty header: it is
    present and has no part at all, and the resolver answers "Token missing",
    not "Invalid authorization header". *)
Lemma empty_authorization_counterexample :
  str_split_whitespace (lit "") = []
  /\ @get_current_user ascii_unicode_data example_codec (Some (lit "")) example_session
     = (Raised (unauthorized "Token missing"), example_session)
  /\ unauthorized "Token missing" <> unauthorized "Invalid authorization header".
Proof. repeat split. discriminate. Qed.

(** C7 as the specification words it fails on a token the codec decodes to
    an empty set of claims: its subject is the id of no user, and the
    resolver answers "Invalid or expired token", not "User not found". *)
Lemma empty_claims_counterexample :
  str_split_whitespace (lit "Bearer empty") = [lit "Bearer"; lit "empty"]
  /\ @decode_access_token example_codec (lit "empty") = Some ∅
  /\ (forall user, In user (users example_session) ->
        (∅ : gmap string Z) !! "sub"%string <> Some (User.id user))
  /\ @get_current_user ascii_unicode_data example_codec
       (Some (lit "Bearer empty")) example_session
     = (Raised (unauthorized "Invalid or expired token"), example_session)
  /\ unauthorized "Invalid or expired token" <> unauthorized "User not found".
Proof.
  split; [reflexivity|]. split; [reflexivity|]. split; [intros user _; discriminate|].
  split; [vm_compute; reflexivity|discriminate].
Qed.

(** ** The store and the two handlers *)

Lemma next_id_above (rows : list HealthData.t) (r : HealthData.t) :
  In r rows -> HealthData.id r < next_id rows.
Proof.
  unfold next_id. induction rows as [|x rows IH]; simpl; [tauto|].
  intros [->|Hin]; [lia|]. specialize (IH Hin). lia.
Qed.

Lemma next_id_fresh (rows : list HealthData.t) :
  ~ In (next_id rows) (map HealthData.id rows).
Proof.
  intros Hin. apply in_map_iff in Hin as (r & E & Hin).
  pose proof (next_id_above rows r Hin). lia.
Qed.

(** Ids that identify the rows still do after an insertion. *)
Lemma add_commit_refresh_keeps_ids_distinct (db : Session) (i : Z) (w : float)
  (b : pystr) (g : float) :
  List.NoDup (map HealthData.id (health_data db)) ->
  List.NoDup (map HealthData.id (health_data (snd (add_commit_refresh db i w b g)))).
Proof.
  intros H. simpl. rewrite map_app. simpl.
  apply NoDup_ListNoDup, NoDup_app. repeat split.
  - apply NoDup_ListNoDup. assumption.
  - intros x Hx Hx'. apply list_elem_of_In in Hx, Hx'. simpl in Hx'.
    destruct Hx' as [<-|[]]. exact (next_id_fresh _ Hx).
  - apply NoDup_singleton.
Qed.

Lemma query_health_data_all_spec (db : Session) (i : Z) (r : HealthData.t) :
  In r (query_health_data_all db i) <->
  In r (health_data db) /\ HealthData.patient_id r = i.
Proof. unfold query_health_data_all. rewrite filter_In, Z.eqb_eq. reflexivity. Qed.

Section HandlerClaims.
Context {UD : UnicodeData} {TC : TokenCodec}.

(** C1.  For a resolved user, the list handler returns the rows of the
    table whose patient is that user, all of them and no other, in the order
    of the table, and leaves the database as it was; so does the route,
    whatever the header. *)
Theorem list_returns_own_records (current_user : User.t) (db : Session) :
  exists entries,
    get_health_data current_user db = (Returned entries, db)
    /\ (forall r, In r entries <->
          In r (health_data db)
          /\ HealthData.patient_id r = User.id current_user)
    /\ entries
       = List.filter (fun r => HealthData.patient_id r =? User.id current_user)
           (health_data db)
    /\ (forall authorization, snd (GET_healthdata authorization db) = db).
Proof.
  exists (query_health_data_all db (User.id current_user)).
  split; [reflexivity|]. split; [apply query_health_data_all_spec|].
  split; [reflexivity|].
  intros authorization. unfold GET_healthdata.
  pose proof (get_current_user_readonly authorization db) as R.
  destruct (get_current_user authorization db) as [[user|e] db1]; simpl in R; subst db1;
    reflexivity.
Qed.

(** C8.  For a validated payload and a resolved user, the submit handler
    appends one row to the table of the records and changes nothing else;
    the row has the user as patient, the three values of the payload, an id
    no row had, and the confirmation returned carries that id as
    [data_id]. *)
Theorem submit_persists_one_record (data : HealthDataRequest.t)
  (current_user : User.t) (db : Session) :
  exists row,
    log_health_data data current_user db
    = (Returned {| message := "Health data recorded";
                   data_id := HealthData.id row |},
       {| users := users db;
          health_data := health_data db ++ [row];
          now := now db |})
    /\ HealthData.patient_id row = User.id current_user
    /\ HealthData.weight row = HealthDataRequest.weight data
    /\ HealthData.bp row = HealthDataRequest.bp data
    /\ HealthData.glucose row = HealthDataRequest.glucose data
    /\ ~ In (HealthData.id row) (map HealthData.id (health_data db)).
Proof.
  eexists. split; [reflexivity|]. simpl. repeat split. apply next_id_fresh.
Qed.

Lemma validate_inr (c : candidate) (d : HealthDataRequest.t) :
  HealthDataRequest_validate c = inr d <->
  validate_weight (raw_weight c) = Valid (HealthDataRequest.weight d)
  /\ validate_blood_pressure (raw_bp c) = Valid (HealthDataRequest.bp d)
  /\ validate_glucose (raw_glucose c) = Valid (HealthDataRequest.glucose d).
Proof.
  unfold HealthDataRequest_validate.
  destruct (validate_weight (raw_weight c)) as [w|mw];
    destruct (validate_blood_pressure (raw_bp c)) as [b|mb];
    destruct (validate_glucose (raw_glucose c)) as [g|mg];
    (split; [intros H; try discriminate H | intros (Hw & Hb & Hg); try discriminate]).
  - injection H as <-. auto.
  - destruct d. simpl in *. congruence.
Qed.

(** C2.  When a valid payload is submitted as [U] and the records are then
    listed as [U], the list is the one [U] had, followed by one row that
    holds the three validated values and the id of the confirmation; the
    list of a user with another id is the one that user had: it has neither
    that row nor a row with its id. *)
Theorem submit_then_list (P : candidate) (data : HealthDataRequest.t)
  (U V : User.t) (db : Session) :
  HealthDataRequest_validate P = inr data ->
  User.id V <> User.id U ->
  exists row confirmation db1,
    log_health_data data U db = (Returned confirmation, db1)
    /\ data_id confirmation = HealthData.id row
    /\ get_health_data U db1
       = (Returned (query_health_data_all db (User.id U) ++ [row]), db1)
    /\ validate_weight (raw_weight P) = Valid (HealthData.weight row)
    /\ validate_blood_pressure (raw_bp P) = Valid (HealthData.bp row)
    /\ validate_glucose (raw_glucose P) = Valid (HealthData.glucose row)
    /\ get_health_data V db1 = (Returned (query_health_data_all db (User.id V)), db1)
    /\ ~ In row (query_health_data_all db (User.id V))
    /\ (forall r, In r (query_health_data_all db (User.id V)) ->
          HealthData.id r <> HealthData.id row).
Proof.
  intros Hvalid Hne. apply validate_inr in Hvalid as (Hw & Hb & Hg).
  destruct (add_commit_refresh db (User.id U) (HealthDataRequest.weight data)
              (HealthDataRequest.bp data) (HealthDataRequest.glucose data))
    as [row db1] eqn:E.
  unfold add_commit_refresh in E. injection E as Erow Edb.
  exists row, {| message := "Health data recorded"; data_id := HealthData.id row |}, db1.
  assert (HU : HealthData.patient_id row = User.id U) by (subst row; reflexivity).
  assert (Hrows : health_data db1 = health_data db ++ [row]) by (subst db1 row; reflexivity).
  assert (Hid : HealthData.id row = next_id (health_data db)) by (subst row; reflexivity).
  repeat split.
  - unfold log_health_data, add_commit_refresh. subst row db1. reflexivity.
  - unfold get_health_data, bind, query, ret, query_health_data_all.
    rewrite Hrows, List.filter_app. simpl. rewrite HU, Z.eqb_refl. reflexivity.
  - subst row. exact Hw.
  - subst row. exact Hb.
  - subst row. exact Hg.
  - unfold get_health_data, bind, query, ret, query_health_data_all.
    rewrite Hrows, List.filter_app. simpl. rewrite HU.
    destruct (Z.eqb_spec (User.id U) (User.id V)) as [Eq|_]; [congruence|].
    rewrite app_nil_r. reflexivity.
  - intros Hin. apply query_health_data_all_spec in Hin as [_ Hp]. congruence.
  - intros r Hin. apply query_health_data_all_spec in Hin as [Hin _].
    pose proof (next_id_above _ _ Hin). lia.
Qed.

Lemma filter_field_errors {A} (field field' : string) (r : validated A) :
  List.filter (fun e => String.eqb (fst e) field) (field_errors field' r)
  = if String.eqb field' field then field_errors field' r else [].
Proof.
  destruct r as [v|msg]; simpl; [destruct (String.eqb field' field); reflexivity|].
  destruct (String.eqb field' field); reflexivity.
Qed.

(** C9.  The errors a request has for a field are those of the validator of
    that field on the value of that field, whatever the two other fields
    are; the request is valid exactly when the three validators accept, and
    then holds their three results.  When the validation fails the route
    answers 422 or 401, records nothing and leaves the database as it
    was. *)
Theorem validation_independent_and_before_insert (c : candidate) :
  errors_of_field "weight" (HealthDataRequest_validate c)
  = field_errors "weight" (validate_weight (raw_weight c))
  /\ errors_of_field "bp" (HealthDataRequest_validate c)
     = field_errors "bp" (validate_blood_pressure (raw_bp c))
  /\ errors_of_field "glucose" (HealthDataRequest_validate c)
     = field_errors "glucose" (validate_glucose (raw_glucose c))
  /\ (forall d, HealthDataRequest_validate c = inr d <->
        validate_weight (raw_weight c) = Valid (HealthDataRequest.weight d)
        /\ validate_blood_pressure (raw_bp c) = Valid (HealthDataRequest.bp d)
        /\ validate_glucose (raw_glucose c) = Valid (HealthDataRequest.glucose d))
  /\ (forall errors authorization db,
        HealthDataRequest_validate c = inl errors ->
        errors <> []
        /\ snd (POST_healthdata authorization c db) = db
        /\ (fst (POST_healthdata authorization c db) = Unprocessable errors
            \/ exists e, fst (POST_healthdata authorization c db) = Failed e)).
Proof.
  assert (Hfields : forall field,
    errors_of_field field (HealthDataRequest_validate c)
    = List.filter (fun e => String.eqb (fst e) field)
        (field_errors "weight" (validate_weight (raw_weight c))
         ++ field_errors "bp" (validate_blood_pressure (raw_bp c))
         ++ field_errors "glucose" (validate_glucose (raw_glucose c)))).
  { intros field. unfold HealthDataRequest_validate.
    destruct (validate_weight (raw_weight c));
      destruct (validate_blood_pressure (raw_bp c));
      destruct (validate_glucose (raw_glucose c)); reflexivity. }
  split; [|split; [|split; [|split]]].
  - rewrite Hfields, !List.filter_app, !filter_field_errors. simpl. apply app_nil_r.
  - rewrite Hfields, !List.filter_app, !filter_field_errors. simpl. apply app_nil_r.
  - rewrite Hfields, !List.filter_app, !filter_field_errors. reflexivity.
  - apply validate_inr.
  - intros errors authorization db Hinv. split; [|split].
    + revert Hinv. unfold HealthDataRequest_validate.
      destruct (validate_weight (raw_weight c));
        destruct (validate_blood_pressure (raw_bp c));
        destruct (validate_glucose (raw_glucose c)); intros H;
        try discriminate H; injection H as <-; discriminate.
    + unfold POST_healthdata.
      pose proof (get_current_user_readonly authorization db) as R.
      destruct (get_current_user authorization db) as [[user|e] db1]; simpl in R;
        subst db1; [rewrite Hinv|]; reflexivity.
    + unfold POST_healthdata.
      destruct (get_current_user authorization db) as [[user|e] db1];
        [rewrite Hinv; left; reflexivity|right; eauto].
Qed.
End HandlerClaims.

(** C2 on the example database: "ann" submits, "bob" lists. *)
Lemma submit_then_list_witness :
  exists row confirmation db1,
    log_health_data
      {| HealthDataRequest.weight := b64 0x11800000000000 6;
         HealthDataRequest.bp := lit "120/80";
         HealthDataRequest.glucose := b64 0x16800000000000 6 |} ann example_session
    = (Returned confirmation, db1)
    /\ data_id confirmation = HealthData.id row
    /\ get_health_data ann db1
       = (Returned (query_health_data_all example_session (User.id ann) ++ [row]), db1)
    /\ validate_weight (b64 0x118051eb851eb8 6) = Valid (HealthData.weight row)
    /\ @validate_blood_pressure ascii_unicode_data (lit "1 20/ 80")
       = Valid (HealthData.bp row)
    /\ validate_glucose (b64 0x16800000000000 6) = Valid (HealthData.glucose row)
    /\ get_health_data bob db1
       = (Returned (query_health_data_all example_session (User.id bob)), db1)
    /\ ~ In row (query_health_data_all example_session (User.id bob))
    /\ (forall r, In r (query_health_data_all example_session (User.id bob)) ->
          HealthData.id r <> HealthData.id row).
Proof.
  apply (@submit_then_list ascii_unicode_data
           {| raw_weight := b64 0x118051eb851eb8 6;
              raw_bp := lit "1 20/ 80";
              raw_glucose := b64 0x16800000000000 6 |}
           {| HealthDataRequest.weight := b64 0x11800000000000 6;
              HealthDataRequest.bp := lit "120/80";
              HealthDataRequest.glucose := b64 0x16800000000000 6 |}
           ann bob example_session).
  - vm_compute. reflexivity.
  - discriminate.
Defined.

(** ** Further properties of the service *)

Section FurtherProperties.
Context {UD : UnicodeData} {TC : TokenCodec}.

(** The POST route changes the database only when it answers with a
    confirmation, and then by the one row of the resolved user whose id the
    confirmation carries. *)
Theorem post_changes_only_on_confirmation (authorization : option pystr)
  (body : candidate) (db : Session) :
  match fst (POST_healthdata authorization body db) with
  | Recorded c =>
      exists user data row,
        get_current_user authorization db = (Returned user, db)
        /\ HealthDataRequest_validate body = inr data
        /\ snd (POST_healthdata authorization body db)
           = {| users := users db;
                health_data := health_data db ++ [row];
                now := now db |}
        /\ HealthData.patient_id row = User.id user
        /\ HealthData.id row = data_id c
  | _ => snd (POST_healthdata authorization body db) = db
  end.
Proof.
  unfold POST_healthdata.
  pose proof (get_current_user_readonly authorization db) as R.
  destruct (get_current_user authorization db) as [[user|e] db1]; simpl in R; subst db1;
    [|reflexivity].
  destruct (HealthDataRequest_validate body) as [errors|data]; [reflexivity|].
  simpl. eexists user, data, _. repeat split.
Qed.

(** Every blood pressure the validator accepts is the text it was given
    without its spaces, passes the pattern, and has its two numbers within
    the ranges. *)
Theorem accepted_bp_is_in_range (v kept : pystr) :
  validate_blood_pressure v = Valid kept ->
  kept = str_replace SPACE [] v
  /\ re_match BP_PATTERN kept = true
  /\ exists systolic diastolic,
       unpack_two_ints (str_split SLASH kept) = Some (systolic, diastolic)
       /\ 70 <= systolic <= 250 /\ 40 <= diastolic <= 150.
Proof.
  unfold validate_blood_pressure.
  destruct (re_match BP_PATTERN (str_replace SPACE [] v)) eqn:M; [|discriminate].
  simpl negb. cbv iota.
  destruct (unpack_two_ints _) as [[systolic diastolic]|] eqn:U; [|discriminate].
  destruct ((systolic <? 70) || (systolic >? 250)) eqn:Es; [discriminate|].
  destruct ((diastolic <? 40) || (diastolic >? 150)) eqn:Ed; [discriminate|].
  intros H. injection H as <-. split; [reflexivity|]. split; [assumption|].
  exists systolic, diastolic. split; [assumption|].
  apply orb_false_iff in Es as [Es1 Es2]. apply orb_false_iff in Ed as [Ed1 Ed2].
  apply Z.ltb_ge in Es1, Ed1. rewrite Z.gtb_ltb in Es2, Ed2.
  apply Z.ltb_ge in Es2, Ed2. lia.
Qed.

(** What the pattern of the validator accepts is what the pattern of the
    specification accepts, and the same followed by one newline. *)
Theorem bp_pattern_language (s : pystr) :
  re_match BP_PATTERN s = true <->
  spec_bp_pattern s = true
  \/ exists s0, s = s0 ++ [NEWLINE] /\ spec_bp_pattern s0 = true.
Proof. exact (re_match_spec_bp_pattern s). Qed.

(** A submission keeps the ids of the records distinct. *)
Theorem submit_keeps_ids_distinct (data : HealthDataRequest.t)
  (current_user : User.t) (db : Session) :
  List.NoDup (map HealthData.id (health_data db)) ->
  List.NoDup
    (map HealthData.id (health_data (snd (log_health_data data current_user db)))).
Proof.
  intros H. unfold log_health_data.
  apply (add_commit_refresh_keeps_ids_distinct db (User.id current_user)
           (HealthDataRequest.weight data) (HealthDataRequest.bp data)
           (HealthDataRequest.glucose data)) in H.
  destruct (add_commit_refresh db _ _ _ _) as [row db1]. exact H.
Qed.
End FurtherProperties.

Lemma accepted_bp_is_in_range_witness :
  lit "120/80" = str_replace SPACE [] (lit "1 20/ 80")
  /\ @re_match ascii_unicode_data BP_PATTERN (lit "120/80") = true
  /\ exists systolic diastolic,
       @unpack_two_ints ascii_unicode_data (str_split SLASH (lit "120/80"))
       = Some (systolic, diastolic)
       /\ 70 <= systolic <= 250 /\ 40 <= diastolic <= 150.
Proof.
  apply (@accepted_bp_is_in_range ascii_unicode_data (lit "1 20/ 80") (lit "120/80")).
  reflexivity.
Defined.

Lemma submit_keeps_ids_distinct_witness :
  List.NoDup
    (map HealthData.id
       (health_data
          (snd (log_health_data
                  {| HealthDataRequest.weight := b64 0x11800000000000 6;
                     HealthDataRequest.bp := lit "120/80";
                     HealthDataRequest.glucose := b64 0x16800000000000 6 |}
                  ann example_session)))).
Proof.
  apply submit_keeps_ids_distinct. simpl.
  constructor; [simpl; tauto|constructor].
Defined.

(** ** More on the blood-pressure validator *)

Section MoreBloodPressure.
Context {UD : UnicodeData}.

Lemma filter_idempotent {A} (f : A -> bool) (l : list A) :
  List.filter f (List.filter f l) = List.filter f l.
Proof.
  induction l as [|x l IH]; simpl; [reflexivity|].
  destruct (f x) eqn:E; simpl; rewrite ?E, IH; reflexivity.
Qed.

Lemma str_replace_idempotent (old : N) (v : pystr) :
  str_replace old [] (str_replace old [] v) = str_replace old [] v.
Proof. rewrite !str_replace_remove. apply filter_idempotent. Qed.

Lemma validate_blood_pressure_of_stripped (v : pystr) :
  validate_blood_pressure (str_replace SPACE [] v) = validate_blood_pressure v.
Proof. unfold validate_blood_pressure. rewrite str_replace_idempotent. reflexivity. Qed.

Lemma validate_blood_pressure_Valid (v kept : pystr) :
  validate_blood_pressure v = Valid kept -> kept = str_replace SPACE [] v.
Proof.
  unfold validate_blood_pressure.
  destruct (negb _); [discriminate|].
  destruct (unpack_two_ints _) as [[systolic diastolic]|]; [|discriminate].
  destruct (_ || _); [discriminate|]. destruct (_ || _); [discriminate|].
  intros H. injection H as <-. reflexivity.
Qed.

(** The spaces of the text do not count, and a blood pressure that was
    accepted is accepted again, unchanged: validating what was kept gives
    what was kept. *)
Theorem bp_validation_idempotent (v : pystr) :
  validate_blood_pressure (str_replace SPACE [] v) = validate_blood_pressure v
  /\ (forall kept, validate_blood_pressure v = Valid kept ->
        validate_blood_pressure kept = Valid kept).
Proof.
  split; [apply validate_blood_pressure_of_stripped|].
  intros kept H. pose proof (validate_blood_pressure_Valid v kept H) as ->.
  rewrite validate_blood_pressure_of_stripped. exact H.
Qed.

(** The outcome of the validator, case by case: the text left after the
    spaces are removed either fails the pattern, or it matches, [int] reads
    its two runs of digits, and the two ranges decide. *)
Lemma validate_blood_pressure_cases (v : pystr) :
  (re_match BP_PATTERN (str_replace SPACE [] v) = false
   /\ validate_blood_pressure v = ValueError MSG_BP_FORMAT)
  \/ (exists systolic diastolic,
        re_match BP_PATTERN (str_replace SPACE [] v) = true
        /\ unpack_two_ints (str_split SLASH (str_replace SPACE [] v))
           = Some (systolic, diastolic)
        /\ validate_blood_pressure v
           = range_checks systolic diastolic (str_replace SPACE [] v)).
Proof.
  destruct (re_match BP_PATTERN (str_replace SPACE [] v)) eqn:M.
  - right. destruct (proj1 (re_match_BP_PATTERN _) M)
      as (d1 & d2 & tail & E & H1 & L1 & H2 & L2 & Ht).
    exists (digits_value d1), (digits_value d2). split; [reflexivity|]. split.
    + rewrite E. apply unpack_matched; assumption.
    + apply (validate_blood_pressure_matched v d1 d2 tail); assumption.
  - left. split; [reflexivity|]. apply validate_blood_pressure_no_match. exact M.
Qed.

(** The validator raises one of its own three errors and never the error of
    [int] or of the unpacking: the pattern lets through only what they can
    read.  The error of the diastolic range is raised only when the systolic
    pressure is within its range. *)
Theorem bp_errors_classified (v : pystr) :
  validate_blood_pressure v <> ValueError MSG_UNPACK
  /\ (forall msg, validate_blood_pressure v = ValueError msg ->
        msg = MSG_BP_FORMAT \/ msg = MSG_SYSTOLIC \/ msg = MSG_DIASTOLIC)
  /\ (validate_blood_pressure v = ValueError MSG_BP_FORMAT ->
        re_match BP_PATTERN (str_replace SPACE [] v) = false)
  /\ (validate_blood_pressure v = ValueError MSG_SYSTOLIC ->
        exists systolic diastolic,
          unpack_two_ints (str_split SLASH (str_replace SPACE [] v))
          = Some (systolic, diastolic)
          /\ (systolic < 70 \/ 250 < systolic))
  /\ (validate_blood_pressure v = ValueError MSG_DIASTOLIC ->
        exists systolic diastolic,
          unpack_two_ints (str_split SLASH (str_replace SPACE [] v))
          = Some (systolic, diastolic)
          /\ 70 <= systolic <= 250 /\ (diastolic < 40 \/ 150 < diastolic)).
Proof.
  destruct (validate_blood_pressure_cases v) as [[M ->]|(sy & di & M & U & ->)].
  - split; [discriminate|]. split; [intros msg H; injection H as <-; auto|].
    split; [auto|]. split; discriminate.
  - unfold range_checks.
    destruct ((sy <? 70) || (sy >? 250)) eqn:Es;
      [|destruct ((di <? 40) || (di >? 150)) eqn:Ed].
    + split; [discriminate|]. split; [intros msg H; injection H as <-; auto|].
      split; [discriminate|]. split; [|discriminate].
      intros _. exists sy, di. split; [assumption|].
      apply orb_true_iff in Es as [Es|Es]; [apply Z.ltb_lt in Es; lia|].
      rewrite Z.gtb_ltb in Es. apply Z.ltb_lt in Es. lia.
    + split; [discriminate|]. split; [intros msg H; injection H as <-; auto|].
      split; [discriminate|]. split; [discriminate|].
      intros _. exists sy, di. split; [assumption|].
      apply orb_false_iff in Es as [Es1 Es2]. apply Z.ltb_ge in Es1.
      rewrite Z.gtb_ltb in Es2. apply Z.ltb_ge in Es2. split; [lia|].
      apply orb_true_iff in Ed as [Ed|Ed]; [apply Z.ltb_lt in Ed; lia|].
      rewrite Z.gtb_ltb in Ed. apply Z.ltb_lt in Ed. lia.
    + split; [discriminate|]. split; [discriminate|].
      split; [discriminate|]. split; discriminate.
Qed.
End MoreBloodPressure.

(** ** More on the validators of the two numbers *)

Lemma float_not_le_zero (w : float) :
  float_le w float_zero = false <->
  float_is_nan w = true \/ float_lt float_zero w = true.
Proof.
  unfold float_le, float_lt, float_zero, float_is_nan, SFleb, SFltb.
  destruct w as [s|s| |s m e]; try destruct s; simpl; intuition congruence.
Qed.

(** A float not below zero rounds to a float not below zero. *)
Lemma float_round_not_negative (x : float) (ndigits : nat) :
  float_lt x float_zero = false ->
  float_lt (float_round x ndigits) float_zero = false.
Proof.
  unfold float_lt, float_zero, SFltb.
  destruct x as [s|s| |s m e]; simpl; try (intros H; exact H).
  destruct s; [discriminate|]. intros _.
  destruct (match e with
            | Zneg p => round_half_even (Zpos m * 10 ^ Z.of_nat ndigits) (2 ^ Zpos p)
            | _ => Zpos m * 10 ^ Z.of_nat ndigits * 2 ^ e
            end) as [|q|q]; try reflexivity.
  destruct (SFdiv_core_binary prec emax (Zpos q) 0 (10 ^ Z.of_nat ndigits) 0)
    as [[mz ez] lz].
  unfold binary_round_aux.
  destruct (shr_fexp prec emax mz ez lz) as [mrs' e'].
  destruct (shr_fexp prec emax _ e' loc_Exact) as [mrs'' e''].
  destruct (shr_m mrs'') as [|p|p]; try reflexivity.
  destruct (e'' <=? emax - prec); reflexivity.
Qed.

(** The two validators accept exactly the floats that are not [<= 0]: the
    positive ones, the positive infinity included, and also NaN, which no
    comparison refuses and which is kept as it is. *)
Theorem numbers_accepted_iff_positive_or_nan (v : float) :
  ((exists kept, validate_weight v = Valid kept) <->
   float_is_nan v = true \/ float_lt float_zero v = true)
  /\ ((exists kept, validate_glucose v = Valid kept) <->
      float_is_nan v = true \/ float_lt float_zero v = true)
  /\ (float_is_nan v = true ->
      validate_weight v = Valid v /\ validate_glucose v = Valid v).
Proof.
  unfold validate_weight, validate_glucose.
  rewrite <- (float_not_le_zero v).
  destruct (float_le v float_zero) eqn:E.
  - repeat split; try (intros [kept H]; discriminate H); try discriminate.
    + destruct v; discriminate.
    + destruct v; discriminate.
  - repeat split; eauto; destruct v; try discriminate; reflexivity.
Qed.

Lemma float_not_le_not_lt (v : float) :
  float_le v float_zero = false -> float_lt v float_zero = false.
Proof.
  unfold float_le, float_lt, float_zero, SFleb, SFltb.
  destruct v as [s|s| |s m e]; try destruct s; simpl; congruence.
Qed.

Lemma validate_weight_kept (v kept : float) :
  validate_weight v = Valid kept -> float_lt kept float_zero = false.
Proof.
  unfold validate_weight. destruct (float_le v float_zero) eqn:E; [discriminate|].
  intros K. injection K as <-.
  apply float_round_not_negative, float_not_le_not_lt, E.
Qed.

Lemma validate_glucose_kept (v kept : float) :
  validate_glucose v = Valid kept -> float_lt kept float_zero = false.
Proof.
  unfold validate_glucose. destruct (float_le v float_zero) eqn:E; [discriminate|].
  intros K. injection K as <-.
  apply float_round_not_negative, float_not_le_not_lt, E.
Qed.

(** What the two validators keep is never below zero; it can be zero, which
    the validators themselves refuse. *)
Theorem kept_number_not_negative :
  (forall v kept, validate_weight v = Valid kept -> float_lt kept float_zero = false)
  /\ (forall v kept, validate_glucose v = Valid kept -> float_lt kept float_zero = false)
  /\ (exists v, validate_weight v = Valid float_zero
                /\ validate_weight float_zero = ValueError MSG_WEIGHT
                /\ validate_glucose v = Valid float_zero
                /\ validate_glucose float_zero = ValueError MSG_GLUCOSE).
Proof.
  split; [exact validate_weight_kept|]. split; [exact validate_glucose_kept|].
  exists (b64 0x10624dd2f1a9fc (-10)). vm_compute. repeat split.
Qed.

(** ** More on the resolver *)

(** The parts [str.split()] gives are not empty and hold no whitespace. *)
Lemma str_split_whitespace_from_parts : forall (s word part : pystr),
  (forall c, In c word -> Py_UNICODE_ISSPACE c = false) ->
  In part (str_split_whitespace_from word s) ->
  part <> [] /\ (forall c, In c part -> Py_UNICODE_ISSPACE c = false).
Proof.
  assert (Hrev : forall word : pystr, word <> [] ->
            (forall c, In c word -> Py_UNICODE_ISSPACE c = false) ->
            rev word <> [] /\ (forall c, In c (rev word) -> Py_UNICODE_ISSPACE c = false)).
  { intros word Hne Hw. split.
    - intros E. apply Hne. rewrite <- (rev_involutive word), E. reflexivity.
    - intros c Hc. apply Hw. apply in_rev. exact Hc. }
  induction s as [|c s IH]; intros word part Hw Hin; simpl in Hin.
  - destruct word as [|x word]; [destruct Hin|].
    destruct Hin as [<-|[]]. apply Hrev; [discriminate|assumption].
  - destruct (Py_UNICODE_ISSPACE c) eqn:Ec.
    + destruct word as [|x word].
      * apply (IH [] part); [intros ? []|assumption].
      * destruct Hin as [<-|Hin]; [apply Hrev; [discriminate|assumption]|].
        apply (IH [] part); [intros ? []|assumption].
    + apply (IH (c :: word) part); [|assumption].
      intros c' [<-|Hc']; auto.
Qed.

Lemma str_split_whitespace_parts (s part : pystr) :
  In part (str_split_whitespace s) ->
  part <> [] /\ (forall c, In c part -> Py_UNICODE_ISSPACE c = false).
Proof. apply str_split_whitespace_from_parts. intros ? []. Qed.

Section MoreResolver.
Context {UD : UnicodeData}.

(** Every failure of the resolver is a 401 with one of its four details, and
    the resolver leaves the database as it was, whatever it answers. *)
Theorem resolver_fails_with_401 {TC : TokenCodec} (authorization : option pystr)
  (db : Session) :
  snd (get_current_user authorization db) = db
  /\ (forall e, fst (get_current_user authorization db) = Raised e ->
        status_code e = 401
        /\ (detail e = "Token missing"%string
            \/ detail e = "Invalid authorization header"%string
            \/ detail e = "Invalid or expired token"%string
            \/ detail e = "User not found"%string)).
Proof.
  split; [apply get_current_user_readonly|].
  unfold get_current_user.
  destruct authorization as [[|c a]|];
    try (intros e H; injection H as <-; simpl; auto).
  destruct (str_split_whitespace (c :: a)) as [|scheme [|token [|? ?]]];
    try (intros e H; injection H as <-; simpl; auto).
  destruct (negb _); [intros e H; injection H as <-; simpl; auto|].
  destruct (decode_access_token token) as [payload|];
    [|intros e H; injection H as <-; simpl; auto].
  destruct (bool_decide _); [intros e H; injection H as <-; simpl; auto 6|].
  unfold bind, query. destruct (query_user_first db _);
    intros e H; [discriminate H|injection H as <-; simpl; auto 6].
Qed.

(** The resolver returns a user only for a header of two parts whose first
    is "bearer" in lower case, with a token the codec decodes to claims
    whose subject is the id of that user, a row of the table of the
    users. *)
Theorem resolver_sound {TC : TokenCodec} (authorization : option pystr)
  (db : Session) (user : User.t) :
  fst (get_current_user authorization db) = Returned user ->
  exists a scheme token payload,
    authorization = Some a
    /\ str_split_whitespace a = [scheme; token]
    /\ str_lower scheme = lit "bearer"
    /\ decode_access_token token = Some payload
    /\ payload !! "sub"%string = Some (User.id user)
    /\ In user (users db).
Proof.
  unfold get_current_user.
  destruct authorization as [[|c a]|]; try (cbn [fst raise]; discriminate).
  destruct (str_split_whitespace (c :: a)) as [|scheme [|token [|? ?]]] eqn:S;
    try (cbn [fst raise]; discriminate).
  destruct (bool_decide (str_lower scheme = lit "bearer")) eqn:B;
    [|cbn [negb fst raise]; discriminate].
  apply bool_decide_eq_true_1 in B. cbn [negb].
  destruct (decode_access_token token) as [payload|] eqn:D;
    [|cbn [fst raise]; discriminate].
  destruct (bool_decide (payload = ∅)); [cbn [fst raise]; discriminate|].
  unfold bind, query.
  destruct (query_user_first db (payload !! "sub"%string)) as [found|] eqn:Q;
    [|cbn [fst raise]; discriminate].
  cbn [fst ret]. intros H. injection H as ->. apply query_user_first_Some in Q as [Hin Hsub].
  exists (c :: a), scheme, token, payload. auto 10.
Qed.

(** The codec is asked about no token that is empty or holds whitespace: two
    codecs that agree on every other token give the same resolver. *)
Theorem resolver_asks_clean_tokens (TC1 TC2 : TokenCodec) :
  (forall token, token <> [] ->
     (forall c, In c token -> Py_UNICODE_ISSPACE c = false) ->
     @decode_access_token TC1 token = @decode_access_token TC2 token) ->
  forall authorization db,
    @get_current_user UD TC1 authorization db
    = @get_current_user UD TC2 authorization db.
Proof.
  intros Hagree authorization db. unfold get_current_user.
  destruct authorization as [[|c a]|]; try reflexivity.
  destruct (str_split_whitespace (c :: a)) as [|scheme [|token [|? ?]]] eqn:S;
    try reflexivity.
  destruct (negb _); [reflexivity|].
  destruct (str_split_whitespace_parts (c :: a) token) as [Hne Hclean].
  { rewrite S. simpl. auto. }
  rewrite (Hagree token Hne Hclean). reflexivity.
Qed.
End MoreResolver.

Lemma resolver_sound_witness :
  exists a scheme token payload,
    Some (lit "BEARER good") = Some a
    /\ str_split_whitespace a = [scheme; token]
    /\ @str_lower ascii_unicode_data scheme = lit "bearer"
    /\ @decode_access_token example_codec token = Some payload
    /\ payload !! "sub"%string = Some (User.id ann)
    /\ In ann (users example_session).
Proof.
  apply (@resolver_sound ascii_unicode_data example_codec
           (Some (lit "BEARER good")) example_session ann).
  vm_compute. reflexivity.
Defined.

Lemma resolver_asks_clean_tokens_witness :
  @get_current_user ascii_unicode_data example_codec
    (Some (lit "Bearer good")) example_session
  = @get_current_user ascii_unicode_data lenient_codec
      (Some (lit "Bearer good")) example_session.
Proof.
  apply (@resolver_asks_clean_tokens ascii_unicode_data example_codec lenient_codec).
  intros token Hne _. unfold lenient_codec. cbn [decode_access_token].
  rewrite (bool_decide_eq_false_2 _ Hne). reflexivity.
Defined.

(** *** The scheme of the header, in any case *)

Section Scheme.
Context {UD : UnicodeData}.

Lemma str_lower_ascii (s : pystr) :
  List.Forall (fun c => (c < 128)%N) s -> str_lower s = map ascii_lower s.
Proof.
  induction 1 as [|c s Hc _ IH]; [reflexivity|].
  unfold str_lower in *. simpl. rewrite IH. unfold char_lower.
  destruct (N.ltb_spec c 128); [reflexivity|lia].
Qed.

Lemma map_eq_Forall2 {A B} (f : A -> B) (s : list A) : forall l,
  map f s = l <-> List.Forall2 (fun c x => f c = x) s l.
Proof.
  induction s as [|c s IH]; intros [|x l]; simpl; split; intros H.
  - constructor.
  - reflexivity.
  - discriminate H.
  - inversion H.
  - discriminate H.
  - inversion H.
  - injection H as Hc Hs. constructor; [exact Hc|]. apply IH. exact Hs.
  - inversion H as [|? ? ? ? Hc Hs]; subst. f_equal. apply IH. exact Hs.
Qed.

Lemma Forall2_iff_on {A B} (R R' : A -> B -> Prop) (s : list A) : forall l,
  (forall c x, In x l -> (R c x <-> R' c x)) ->
  List.Forall2 R s l <-> List.Forall2 R' s l.
Proof.
  induction s as [|c s IH]; intros [|x l] Hiff; split; intros H;
    inversion H as [|? ? ? ? Hc Hs]; subst; constructor.
  - apply (Hiff c x); [left; reflexivity|assumption].
  - apply (IH l); [intros c' x' Hin; apply Hiff; right; assumption|assumption].
  - apply (Hiff c x); [left; reflexivity|assumption].
  - apply (IH l); [intros c' x' Hin; apply Hiff; right; assumption|assumption].
Qed.

Lemma ascii_lower_letter (c l : N) :
  (97 <= l <= 122)%N -> ascii_lower c = l <-> c = l \/ (c + 32)%N = l.
Proof.
  intros Hl. unfold ascii_lower, in_range.
  destruct (N.leb_spec 65 c); destruct (N.leb_spec c 90); simpl; lia.
Qed.

(** For a scheme of ASCII characters, [scheme.lower() == "bearer"] holds
    exactly when the scheme is "bearer" letter by letter, each letter in
    either case. *)
Theorem bearer_scheme_in_any_case (scheme : pystr) :
  List.Forall (fun c => (c < 128)%N) scheme ->
  str_lower scheme = lit "bearer" <->
  List.Forall2 (fun c l => c = l \/ (c + 32)%N = l) scheme (lit "bearer").
Proof.
  intros Hascii. rewrite (str_lower_ascii scheme Hascii).
  transitivity (List.Forall2 (fun c x => ascii_lower c = x) scheme (lit "bearer"));
    [apply map_eq_Forall2|].
  apply Forall2_iff_on. intros c x Hin. apply ascii_lower_letter.
  vm_compute in Hin. intuition (subst; lia).
Qed.
End Scheme.

Lemma bearer_scheme_in_any_case_witness :
  @str_lower ascii_unicode_data (lit "BeArEr") = lit "bearer" <->
  List.Forall2 (fun c l => c = l \/ (c + 32)%N = l) (lit "BeArEr") (lit "bearer").
Proof.
  apply (@bearer_scheme_in_any_case ascii_unicode_data (lit "BeArEr")).
  vm_compute. repeat constructor.
Defined.

(** ** The service over a run of requests *)

Section Runs.
Context {UD : UnicodeData} {TC : TokenCodec}.

Lemma get_current_user_Returned_in_users (authorization : option pystr)
  (db : Session) (user : User.t) :
  fst (get_current_user authorization db) = Returned user -> In user (users db).
Proof.
  unfold get_current_user.
  destruct authorization as [[|c a]|]; try (cbn [fst raise]; discriminate).
  destruct (str_split_whitespace (c :: a)) as [|scheme [|token [|? ?]]];
    try (cbn [fst raise]; discriminate).
  destruct (negb _); [cbn [fst raise]; discriminate|].
  destruct (decode_access_token token) as [payload|];
    [|cbn [fst raise]; discriminate].
  destruct (bool_decide (payload = ∅)); [cbn [fst raise]; discriminate|].
  unfold bind, query.
  destruct (query_user_first db (payload !! "sub"%string)) as [found|] eqn:Q;
    [|cbn [fst raise]; discriminate].
  cbn [fst ret]. intros H. injection H as ->.
  apply query_user_first_Some in Q as [Hin _]. exact Hin.
Qed.

Lemma GET_healthdata_readonly (authorization : option pystr) (db : Session) :
  snd (GET_healthdata authorization db) = db.
Proof.
  unfold GET_healthdata.
  pose proof (get_current_user_readonly authorization db) as R.
  destruct (get_current_user authorization db) as [[user|e] db1]; simpl in R; subst db1;
    reflexivity.
Qed.

Lemma session_eta (db : Session) :
  db = {| users := users db; health_data := health_data db ++ []; now := now db |}.
Proof. destruct db. simpl. rewrite app_nil_r. reflexivity. Qed.

(** One request appends at most one row, of a user of the database and
    with validated values, and changes nothing else. *)
Lemma serve_appends (r : request) (db : Session) :
  exists added,
    snd (serve r db)
    = {| users := users db; health_data := health_data db ++ added; now := now db |}
    /\ (length added <= count_posts [r])%nat
    /\ List.Forall (row_has_owner db) added
    /\ List.Forall row_is_valid added.
Proof.
  destruct r as [authorization body|authorization]; simpl.
  - unfold POST_healthdata.
    pose proof (get_current_user_readonly authorization db) as R.
    pose proof (get_current_user_Returned_in_users authorization db) as U.
    destruct (get_current_user authorization db) as [[user|e] db1]; simpl in R, U;
      subst db1.
    + destruct (HealthDataRequest_validate body) as [errors|data] eqn:V.
      * exists []. simpl. split; [apply session_eta|].
        split; [unfold count_posts; simpl; lia|split; constructor].
      * apply validate_inr in V as (Vw & Vb & Vg).
        eexists [_]. simpl. split; [reflexivity|].
        split; [unfold count_posts; simpl; lia|]. split.
        -- constructor; [|constructor]. exists user. auto.
        -- constructor; [|constructor]. unfold row_is_valid. simpl.
           split; [|split].
           ++ pose proof (validate_blood_pressure_Valid _ _ Vb) as E.
              rewrite E at 1. rewrite validate_blood_pressure_of_stripped. exact Vb.
           ++ exact (validate_weight_kept _ _ Vw).
           ++ exact (validate_glucose_kept _ _ Vg).
    + exists []. simpl. split; [apply session_eta|].
      split; [unfold count_posts; simpl; lia|split; constructor].
  - exists []. simpl. split; [rewrite GET_healthdata_readonly; apply session_eta|].
    split; [unfold count_posts; simpl; lia|split; constructor].
Qed.
Lemma count_posts_cons (r : request) (rs : list request) :
  count_posts (r :: rs) = (count_posts [r] + count_posts rs)%nat.
Proof. unfold count_posts. simpl. destruct r; reflexivity. Qed.

Lemma serve_all_appends (rs : list request) : forall db,
  exists added,
    serve_all rs db
    = {| users := users db; health_data := health_data db ++ added; now := now db |}
    /\ (length added <= count_posts rs)%nat
    /\ List.Forall (row_has_owner db) added
    /\ List.Forall row_is_valid added.
Proof.
  induction rs as [|r rs IH]; intros db.
  - exists []. split; [apply session_eta|]. split; [simpl; lia|split; constructor].
  - destruct (serve_appends r db) as (added1 & E1 & L1 & O1 & V1).
    destruct (IH (snd (serve r db))) as (added2 & E2 & L2 & O2 & V2).
    exists (added1 ++ added2). simpl serve_all. rewrite E2, E1. simpl.
    rewrite <- app_assoc. split; [reflexivity|].
    rewrite length_app, count_posts_cons. split; [lia|]. split.
    + apply List.Forall_app. split; [assumption|].
      rewrite E1 in O2. exact O2.
    + apply List.Forall_app. split; assumption.
Qed.

(** The service never changes the users, and never changes or removes a
    record: after any run of requests the table of the records is the former
    one followed by at most one new row for each submission. *)
Theorem run_is_append_only (rs : list request) (db : Session) :
  users (serve_all rs db) = users db
  /\ now (serve_all rs db) = now db
  /\ exists added,
       health_data (serve_all rs db) = health_data db ++ added
       /\ (length added <= count_posts rs)%nat.
Proof.
  destruct (serve_all_appends rs db) as (added & E & L & _ & _).
  rewrite E. simpl. eauto.
Qed.

(** If the patient of every record is a user of the database, it still is
    after any run of requests. *)
Theorem run_keeps_owners (rs : list request) (db : Session) :
  List.Forall (row_has_owner db) (health_data db) ->
  List.Forall (row_has_owner (serve_all rs db)) (health_data (serve_all rs db)).
Proof.
  intros H. destruct (serve_all_appends rs db) as (added & E & _ & O & _).
  rewrite E. simpl. apply List.Forall_app. split; [exact H|exact O].
Qed.

(** If every record holds a blood pressure the validator keeps as it is, and
    a weight and a glucose level not below zero, it still does after any
    run of requests. *)
Theorem run_keeps_rows_valid (rs : list request) (db : Session) :
  List.Forall row_is_valid (health_data db) ->
  List.Forall row_is_valid (health_data (serve_all rs db)).
Proof.
  intros H. destruct (serve_all_appends rs db) as (added & E & _ & _ & V).
  rewrite E. simpl. apply List.Forall_app. split; [exact H|exact V].
Qed.

(** A list answered by the GET route holds the records of the user the
    header resolves to, a user of the database, and nothing else. *)
Theorem get_lists_only_own_records (authorization : option pystr) (db : Session)
  (entries : list HealthDataResponse.t) :
  fst (GET_healthdata authorization db) = Listed entries ->
  exists user,
    fst (get_current_user authorization db) = Returned user
    /\ In user (users db)
    /\ entries
       = map HealthDataResponse.of_row (query_health_data_all db (User.id user))
    /\ (forall entry, In entry entries ->
          exists row, In row (health_data db)
                      /\ HealthData.patient_id row = User.id user
                      /\ HealthDataResponse.of_row row = entry).
Proof.
  unfold GET_healthdata.
  pose proof (get_current_user_readonly authorization db) as R.
  pose proof (get_current_user_Returned_in_users authorization db) as U.
  destruct (get_current_user authorization db) as [[user|e] db1]; simpl in R, U;
    subst db1; [|discriminate].
  simpl. intros H. injection H as <-. exists user.
  split; [reflexivity|]. split; [auto|]. split; [reflexivity|].
  intros entry Hin. apply in_map_iff in Hin as (row & <- & Hin).
  apply query_health_data_all_spec in Hin as [Hin Hp]. eauto.
Qed.

(** The resolver looks at the users only. *)
Lemma get_current_user_same_users (authorization : option pystr) (db db' : Session) :
  users db' = users db ->
  fst (get_current_user authorization db') = fst (get_current_user authorization db).
Proof.
  intros E. unfold get_current_user.
  destruct authorization as [[|c a]|]; try reflexivity.
  destruct (str_split_whitespace (c :: a)) as [|scheme [|token [|? ?]]]; try reflexivity.
  destruct (negb _); [reflexivity|].
  destruct (decode_access_token token) as [payload|]; [|reflexivity].
  destruct (bool_decide _); [reflexivity|].
  unfold bind, query, query_user_first. rewrite E.
  destruct (payload !! "sub"%string) as [i|]; [|reflexivity].
  destruct (find _ (users db)); reflexivity.
Qed.

(** When a POST with a finite weight and a finite glucose level is answered
    with a confirmation, and a GET with the same header was answered with a
    list before, then a GET with that header on the database the POST left
    is answered with a list that holds, in some order, the entries listed
    before and one more, which has the id of the confirmation and the
    validated values of the body. *)
Theorem post_then_get (authorization : option pystr) (body : candidate)
  (db : Session) (c : Confirmation) (entries : list HealthDataResponse.t) :
  float_is_finite (raw_weight body) = true ->
  float_is_finite (raw_glucose body) = true ->
  fst (POST_healthdata authorization body db) = Recorded c ->
  fst (GET_healthdata authorization db) = Listed entries ->
  exists entries' entry,
    fst (GET_healthdata authorization (snd (POST_healthdata authorization body db)))
    = Listed entries'
    /\ Permutation entries' (entry :: entries)
    /\ HealthDataResponse.id entry = data_id c
    /\ validate_weight (raw_weight body) = Valid (HealthDataResponse.weight entry)
    /\ validate_blood_pressure (raw_bp body) = Valid (HealthDataResponse.bp entry)
    /\ validate_glucose (raw_glucose body) = Valid (HealthDataResponse.glucose entry).
Proof.
  intros _ _. unfold POST_healthdata.
  pose proof (get_current_user_readonly authorization db) as R.
  destruct (get_current_user authorization db) as [[user|e] db1] eqn:G; simpl in R;
    subst db1; [|discriminate].
  destruct (HealthDataRequest_validate body) as [errors|data] eqn:V; [discriminate|].
  apply validate_inr in V as (Vw & Vb & Vg).
  simpl. intros H. injection H as <-.
  unfold GET_healthdata at 1. rewrite G. simpl. intros H. injection H as <-.
  set (row := {| HealthData.id := next_id (health_data db);
                 HealthData.patient_id := User.id user;
                 HealthData.weight := HealthDataRequest.weight data;
                 HealthData.bp := HealthDataRequest.bp data;
                 HealthData.glucose := HealthDataRequest.glucose data;
                 HealthData.timestamp := now db |}).
  set (db' := {| users := users db; health_data := health_data db ++ [row];
                 now := now db |}).
  exists (map HealthDataResponse.of_row (query_health_data_all db' (User.id user))),
    (HealthDataResponse.of_row row).
  split; [|split].
  - unfold GET_healthdata.
    pose proof (get_current_user_readonly authorization db') as R'.
    pose proof (get_current_user_same_users authorization db db' eq_refl) as S.
    rewrite G in S. simpl in S.
    destruct (get_current_user authorization db') as [o db1]; simpl in R', S;
      subst db1 o.
    reflexivity.
  - unfold query_health_data_all. simpl.
    rewrite List.filter_app, map_app. simpl. rewrite Z.eqb_refl. simpl.
    symmetry. apply Permutation_cons_append.
  - simpl. auto.
Qed.
End Runs.

Lemma run_keeps_owners_witness :
  List.Forall
    (row_has_owner
       (@serve_all ascii_unicode_data example_codec
          [POST (Some (lit "Bearer good"))
             {| raw_weight := b64 0x118051eb851eb8 6; raw_bp := lit "1 20/ 80";
                raw_glucose := b64 0x16800000000000 6 |};
           GET (Some (lit "Bearer good"))] example_session))
    (health_data
       (@serve_all ascii_unicode_data example_codec
          [POST (Some (lit "Bearer good"))
             {| raw_weight := b64 0x118051eb851eb8 6; raw_bp := lit "1 20/ 80";
                raw_glucose := b64 0x16800000000000 6 |};
           GET (Some (lit "Bearer good"))] example_session)).
Proof.
  apply run_keeps_owners.
  constructor; [exists bob; simpl; auto|constructor].
Defined.

Lemma run_keeps_rows_valid_witness :
  List.Forall (@row_is_valid ascii_unicode_data)
    (health_data
       (@serve_all ascii_unicode_data example_codec
          [POST (Some (lit "Bearer good"))
             {| raw_weight := b64 0x118051eb851eb8 6; raw_bp := lit "1 20/ 80";
                raw_glucose := b64 0x16800000000000 6 |};
           GET (Some (lit "Bearer good"))] example_session)).
Proof.
  apply run_keeps_rows_valid.
  constructor; [repeat split|constructor].
Defined.

Lemma get_lists_only_own_records_witness :
  exists user,
    fst (@get_current_user ascii_unicode_data example_codec
           (Some (lit "Bearer good")) busy_session) = Returned user
    /\ In user (users busy_session)
    /\ [HealthDataResponse.of_row record_of_ann]
       = map HealthDataResponse.of_row
           (query_health_data_all busy_session (User.id user))
    /\ (forall entry, In entry [HealthDataResponse.of_row record_of_ann] ->
          exists row, In row (health_data busy_session)
                      /\ HealthData.patient_id row = User.id user
                      /\ HealthDataResponse.of_row row = entry).
Proof.
  apply (@get_lists_only_own_records ascii_unicode_data example_codec
           (Some (lit "Bearer good")) busy_session
           [HealthDataResponse.of_row record_of_ann]).
  vm_compute. reflexivity.
Defined.

Lemma post_then_get_witness :
  exists entries' entry,
    fst (@GET_healthdata ascii_unicode_data example_codec
           (Some (lit "Bearer good"))
           (snd (@POST_healthdata ascii_unicode_data example_codec
                   (Some (lit "Bearer good"))
                   {| raw_weight := b64 0x118051eb851eb8 6;
                      raw_bp := lit "1 20/ 80";
                      raw_glucose := b64 0x16800000000000 6 |}
                   busy_session)))
    = Listed entries'
    /\ Permutation entries' (entry :: [HealthDataResponse.of_row record_of_ann])
    /\ HealthDataResponse.id entry
       = data_id {| message := "Health data recorded"; data_id := 4 |}
    /\ validate_weight (b64 0x118051eb851eb8 6) = Valid (HealthDataResponse.weight entry)
    /\ @validate_blood_pressure ascii_unicode_data (lit "1 20/ 80")
       = Valid (HealthDataResponse.bp entry)
    /\ validate_glucose (b64 0x16800000000000 6)
       = Valid (HealthDataResponse.glucose entry).
Proof.
  apply (@post_then_get ascii_unicode_data example_codec (Some (lit "Bearer good"))
           {| raw_weight := b64 0x118051eb851eb8 6; raw_bp := lit "1 20/ 80";
              raw_glucose := b64 0x16800000000000 6 |} busy_session
           {| message := "Health data recorded"; data_id := 4 |}
           [HealthDataResponse.of_row record_of_ann]).
  - reflexivity.
  - reflexivity.
  - vm_compute. reflexivity.
  - vm_compute. reflexivity.
Defined.

(** A blood pressure the validator keeps has five to eight characters: two
    or three digits on each side of the slash, and a newline at the very
    end at most. *)
Theorem kept_bp_is_short (UD : UnicodeData) (v kept : pystr) :
  validate_blood_pressure v = Valid kept ->
  (5 <= length kept <= 8)%nat
  /\ (~ In NEWLINE kept -> (length kept <= 7)%nat)
  /\ ~ In SPACE kept.
Proof.
  intros H. pose proof (validate_blood_pressure_Valid v kept H) as E.
  destruct (validate_blood_pressure_cases v) as [[_ F]|(sy & di & M & _ & _)];
    [congruence|].
  rewrite <- E in M.
  apply re_match_BP_PATTERN in M as (d1 & d2 & tail & -> & _ & L1 & _ & L2 & Ht).
  rewrite length_app. simpl. rewrite length_app. split; [|split].
  - destruct Ht as [->| ->]; simpl; lia.
  - intros Hn. destruct Ht as [->| ->]; simpl; [lia|].
    destruct Hn. apply in_or_app. right. right. apply in_or_app. right. left.
    reflexivity.
  - rewrite E. intros Hin. apply in_str_replace in Hin as [_ Hne]. congruence.
Qed.

Lemma kept_bp_is_short_witness :
  (5 <= length (lit "120/80") <= 8)%nat
  /\ (~ In NEWLINE (lit "120/80") -> (length (lit "120/80") <= 7)%nat)
  /\ ~ In SPACE (lit "120/80").
Proof.
  apply (kept_bp_is_short ascii_unicode_data (lit "1 20/ 80") (lit "120/80")).
  reflexivity.
Defined.
